(** * MergeClusterModal: conflict detection, combination and commit construction

    A shallow embedding of the script part of
    [src/panoptic_front/src/components/modals/MergeClusterModal.vue] and of
    the pieces of the JavaScript runtime it calls, followed by the properties
    of the row builder, the combiner and the commit builder. *)

From Stdlib Require Import ZArith String Ascii List Bool Lia DecimalString DecimalPos DecimalZ.
From stdpp Require Import base gmap strings list sorting.

Local Open Scope Z_scope.

(** ** Part I: the JavaScript values and built-ins used by the component *)

Module Js.

(** Property values are untyped ([any]) in the source.  The model covers the
    shapes the component distinguishes: the two nullish values, booleans,
    integral numbers (identifiers, counts), strings, [Date] objects holding a
    valid time value, and flat arrays of those.  A string is a sequence of
    8-bit codes, compared code by code; text beyond ASCII is held as its
    UTF-8 bytes.  A [Date] is an object: [obj] is its identity, which is what
    a [Set] compares, and [time] its time value in milliseconds. *)
Inductive JsScalar : Type :=
| SUndefined
| SNull
| SBool (b : bool)
| SNum (n : Z)
| SStr (s : string)
| SDate (obj : nat) (time : Z).

Inductive JsValue : Type :=
| VScalar (x : JsScalar)
| VArray (items : list JsScalar).

#[global] Instance JsScalar_eq_dec : EqDecision JsScalar.
Proof. solve_decision. Defined.

#[global] Instance JsValue_eq_dec : EqDecision JsValue.
Proof. solve_decision. Defined.

Definition undefined : JsValue := VScalar SUndefined.
Definition null : JsValue := VScalar SNull.
Definition VBool (b : bool) : JsValue := VScalar (SBool b).
Definition VNum (n : Z) : JsValue := VScalar (SNum n).
Definition VStr (s : string) : JsValue := VScalar (SStr s).

(** [x === undefined] *)
Definition is_undefined (x : JsScalar) : bool :=
  match x with SUndefined => true | _ => false end.

(** [x === undefined || x === null] on scalars and on values *)
Definition scalar_nullish (x : JsScalar) : bool :=
  match x with SUndefined | SNull => true | _ => false end.

Definition nullish (v : JsValue) : bool :=
  match v with VScalar x => scalar_nullish x | VArray _ => false end.

(** [v !== undefined && v !== null] *)
Definition defined (v : JsValue) : bool := negb (nullish v).

(** ToBoolean *)
Definition truthy (x : JsScalar) : bool :=
  match x with
  | SUndefined | SNull => false
  | SBool b => b
  | SNum n => negb (n =? 0)
  | SStr s => negb (String.eqb s "")
  | SDate _ _ => true
  end.

(** Number::toString on an integral number: its decimal digits, with a
    leading minus sign when negative. *)
Definition Number_toString (n : Z) : string :=
  NilZero.string_of_int (Z.to_int n).

(** *** Date.prototype.toISOString *)

Definition digit (n : Z) : ascii := ascii_of_N (48 + Z.to_N (n mod 10)).

(** The [width] low decimal digits of [n], most significant first, in front
    of [acc]. *)
Fixpoint pad (width : nat) (n : Z) (acc : string) : string :=
  match width with
  | O => acc
  | S w => pad w (n / 10) (String (digit n) acc)
  end.

(** Year, month and day of the proleptic Gregorian calendar for a day number
    counted from 1970-01-01. *)
Definition civil_from_days (days : Z) : Z * Z * Z :=
  let z := days + 719468 in
  let era := z / 146097 in
  let doe := z - era * 146097 in
  let yoe := (doe - doe / 1460 + doe / 36524 - doe / 146096) / 365 in
  let doy := doe - (365 * yoe + yoe / 4 - yoe / 100) in
  let mp := (5 * doy + 2) / 153 in
  let d := doy - (153 * mp + 2) / 5 + 1 in
  let m := if mp <? 10 then mp + 3 else mp - 9 in
  let y := yoe + era * 400 + (if m <=? 2 then 1 else 0) in
  (y, m, d).

Definition year_string (y : Z) : string :=
  if (0 <=? y) && (y <=? 9999) then pad 4 y ""
  else (if y <? 0 then "-" else "+") +:+ pad 6 (Z.abs y) "".

(** [YYYY-MM-DDTHH:mm:ss.sssZ] in UTC; years outside 0..9999 are written
    with a sign and six digits. *)
Definition Date_toISOString (time : Z) : string :=
  let '(y, m, d) := civil_from_days (time / 86400000) in
  let ms := time mod 86400000 in
  year_string y +:+ "-" +:+ pad 2 m "" +:+ "-" +:+ pad 2 d "" +:+ "T" +:+
  pad 2 (ms / 3600000) "" +:+ ":" +:+ pad 2 (ms / 60000 mod 60) "" +:+ ":" +:+
  pad 2 (ms / 1000 mod 60) "" +:+ "." +:+ pad 3 (ms mod 1000) "" +:+ "Z".

(** *** JSON.stringify *)

Definition dquote : ascii := "034"%char.
Definition backslash : ascii := "092"%char.

Definition hex_digit (n : N) : ascii :=
  if (n <? 10)%N then ascii_of_N (48 + n) else ascii_of_N (87 + n).

(** One code unit of a string inside a JSON string literal. *)
Definition json_escape (c : ascii) : string :=
  let n := N_of_ascii c in
  if (n =? 8)%N then String backslash "b"
  else if (n =? 9)%N then String backslash "t"
  else if (n =? 10)%N then String backslash "n"
  else if (n =? 12)%N then String backslash "f"
  else if (n =? 13)%N then String backslash "r"
  else if (n =? 34)%N then String backslash (String dquote "")
  else if (n =? 92)%N then String backslash (String backslash "")
  else if (n <? 32)%N then
    String backslash ("u00" +:+ String (hex_digit (n / 16)) (String (hex_digit (n mod 16)) ""))
  else String c "".

Fixpoint json_escape_string (s : string) : string :=
  match s with
  | EmptyString => ""
  | String c s' => json_escape c +:+ json_escape_string s'
  end.

(** QuoteJSONString *)
Definition JSON_quote (s : string) : string :=
  String dquote (json_escape_string s +:+ String dquote "").

(** JSON text of a scalar, as a top-level primitive or as an array element.
    Inside an array [undefined] is written [null]; a [Date] is written
    through its [toJSON], the quoted ISO timestamp.  (At top level
    [JSON.stringify(undefined)] is [undefined]; the component never asks for
    it, its nullish guard comes first.) *)
Definition JSON_stringify_scalar (x : JsScalar) : string :=
  match x with
  | SUndefined | SNull => "null"
  | SBool true => "true"
  | SBool false => "false"
  | SNum n => Number_toString n
  | SStr s => JSON_quote s
  | SDate _ time => JSON_quote (Date_toISOString time)
  end.

(** [JSON.stringify] of an array: the elements' texts between brackets,
    separated by commas. *)
Definition JSON_stringify_array (items : list JsScalar) : string :=
  "[" +:+ String.concat "," (map JSON_stringify_scalar items) +:+ "]".

(** *** Set *)

(** SameValueZero: primitives by value, objects by identity. *)
Definition SameValueZero (x y : JsScalar) : bool :=
  match x, y with
  | SUndefined, SUndefined => true
  | SNull, SNull => true
  | SBool a, SBool b => Bool.eqb a b
  | SNum a, SNum b => a =? b
  | SStr a, SStr b => String.eqb a b
  | SDate a _, SDate b _ => Nat.eqb a b
  | _, _ => false
  end.

(** A [Set] is kept as the list of its members in insertion order.
    [Set_add same s x] is [s.add(x)]. *)
Definition Set_add {A : Type} (same : A -> A -> bool) (s : list A) (x : A) : list A :=
  if existsb (same x) s then s else s ++ [x].

(** [new Set(xs)] *)
Definition Set_of {A : Type} (same : A -> A -> bool) (xs : list A) : list A :=
  fold_left (Set_add same) xs [].

Section Host.

(** [Date.prototype.toString] renders local time in a host-defined format; it
    is only reached for a [Date] stored inside an array. *)
Variable Date_toString : Z -> string.

(** ToString *)
Definition ToString (x : JsScalar) : string :=
  match x with
  | SUndefined => "undefined"
  | SNull => "null"
  | SBool true => "true"
  | SBool false => "false"
  | SNum n => Number_toString n
  | SStr s => s
  | SDate _ time => Date_toString time
  end.

(** [items.join(sep)]: nullish elements contribute the empty string. *)
Definition Array_join (sep : string) (items : list JsScalar) : string :=
  String.concat sep
    (map (fun x => if scalar_nullish x then "" else ToString x) items).

(** The default comparator of [Array.prototype.sort]: [x] goes before [y]
    when [ToString x] is smaller, code unit by code unit. *)
Definition sort_before (x y : JsScalar) : bool :=
  String.ltb (ToString x) (ToString y).

Fixpoint sort_insert (x : JsScalar) (sorted : list JsScalar) : list JsScalar :=
  match sorted with
  | [] => [x]
  | y :: rest => if sort_before y x then y :: sort_insert x rest else x :: y :: rest
  end.

(** [[...items].sort()]: a stable sort of the elements other than
    [undefined] by their string form, the [undefined] ones last. *)
Definition Array_sort (items : list JsScalar) : list JsScalar :=
  foldr sort_insert [] (filter (fun x => negb (is_undefined x)) items)
  ++ filter is_undefined items.

End Host.

End Js.

Import Js.

(** ** Part II: the data model ([@/data/models]) *)

Module PropertyType.
(** Modelled from the spec: the [PropertyType] enumeration is declared in
    [@/data/models], outside the component.  The derived types, [color] and
    [checkbox] carry the names the component uses; the others are the spec's
    free text, numeric, date, single-tag and multi-tag types. *)
Inductive t : Type :=
| multi_tags | tag | text | number | date | checkbox | color
| _folders | _id | _sha1 | _ahash | _width | _height.

#[global] Instance eq_dec : EqDecision t.
Proof. solve_decision. Defined.
End PropertyType.

(** Modelled from the spec: [isTag] is imported from [@/utils/utils]; a
    property is tag-typed when it is single-tag or multi-tag. *)
Definition isTag (type : PropertyType.t) : bool :=
  match type with
  | PropertyType.tag | PropertyType.multi_tags => true
  | _ => false
  end.

Module PropertyMode.
(** Modelled from the spec: the [PropertyMode] enumeration of [@/data/models],
    the storage scope of a property: per instance ([id]) or per entity,
    addressed by content hash ([sha1]). *)
Inductive t : Type := id | sha1.

#[global] Instance eq_dec : EqDecision t.
Proof. solve_decision. Defined.
End PropertyMode.

Module Property.
(** Modelled from the spec: the [Property] interface of [@/data/models], with
    the fields the component reads. *)
Record t : Type := mk {
  id : Z;
  name : string;
  type : PropertyType.t;
  mode : PropertyMode.t;
  computed : bool;
}.

#[global] Instance eq_dec : EqDecision t.
Proof. solve_decision. Defined.
End Property.

Module Instance.
(** Modelled from the spec: the [Instance] interface of [@/data/models], a
    cluster member with its mapping from property identifier to value. *)
Record t : Type := mk {
  id : Z;
  sha1 : string;
  name : string;
  properties : gmap Z JsValue;
}.

(** [img.properties[propertyId]]; a missing entry reads as [undefined]. *)
Definition get (img : t) (propertyId : Z) : JsValue :=
  default undefined (properties img !! propertyId).

(** [{ ...img, id: newId }] *)
Definition with_id (img : t) (newId : Z) : t :=
  {| id := newId; sha1 := sha1 img; name := name img; properties := properties img |}.
End Instance.

Module InstancePropertyValue.
(** A value addressed by property and instance, with the fields
    [confirmMerge] fills in. *)
Record t : Type := mk { propertyId : Z; instanceId : Z; value : JsValue }.
End InstancePropertyValue.

Module ImagePropertyValue.
(** A value addressed by property and content hash, with the fields
    [confirmMerge] fills in. *)
Record t : Type := mk { propertyId : Z; sha1 : string; value : JsValue }.
End ImagePropertyValue.

Module DbCommit.
(** The change set handed to [data.sendCommit]. *)
Record t : Type := mk {
  instances : list Instance.t;
  instanceValues : list InstancePropertyValue.t;
  imageValues : list ImagePropertyValue.t;
}.
End DbCommit.

Module Tag.
(** Modelled from the spec: the [Tag] interface of [@/data/models], the
    descriptor of a tag, with the fields the component reads. *)
Record t : Type := mk { id : Z; value : string }.
End Tag.

(** ** Part III: the component *)

Module MergeOption.
Record t : Type := mk {
  key : string;
  value : JsValue;
  sourceImageId : option Z;
}.
End MergeOption.

Module MergeRow.
Record t : Type := mk {
  property : Property.t;
  options : list MergeOption.t;
  conflict : bool;
}.
End MergeRow.

(** The reactive state of the component: [groupData], [selectedImageId],
    [mergeRows], [selectedOptions], [merging] and [error]. *)
Record State : Type := mkState {
  groupData : option (list Instance.t);
  selectedImageId : option Z;
  mergeRows : list MergeRow.t;
  selectedOptions : gmap Z string;
  merging : bool;
  error : option string;
}.

Definition initial : State :=
  {| groupData := None; selectedImageId := None; mergeRows := [];
     selectedOptions := ∅; merging := false; error := None |}.

Definition set_rows (rows : list MergeRow.t) (st : State) : State :=
  {| groupData := groupData st; selectedImageId := selectedImageId st;
     mergeRows := rows; selectedOptions := selectedOptions st;
     merging := merging st; error := error st |}.

Definition set_selectedOptions (sel : gmap Z string) (st : State) : State :=
  {| groupData := groupData st; selectedImageId := selectedImageId st;
     mergeRows := mergeRows st; selectedOptions := sel;
     merging := merging st; error := error st |}.

Definition set_groupData (g : option (list Instance.t)) (st : State) : State :=
  {| groupData := g; selectedImageId := selectedImageId st;
     mergeRows := mergeRows st; selectedOptions := selectedOptions st;
     merging := merging st; error := error st |}.

Definition set_selectedImageId (i : option Z) (st : State) : State :=
  {| groupData := groupData st; selectedImageId := i;
     mergeRows := mergeRows st; selectedOptions := selectedOptions st;
     merging := merging st; error := error st |}.

Definition set_merging (b : bool) (st : State) : State :=
  {| groupData := groupData st; selectedImageId := selectedImageId st;
     mergeRows := mergeRows st; selectedOptions := selectedOptions st;
     merging := b; error := error st |}.

Definition set_error (e : option string) (st : State) : State :=
  {| groupData := groupData st; selectedImageId := selectedImageId st;
     mergeRows := mergeRows st; selectedOptions := selectedOptions st;
     merging := merging st; error := e |}.

(** [images = computed(() => groupData.value?.images ?? [])] *)
Definition images (st : State) : list Instance.t := default [] (groupData st).

(** [baseImage]: the member picked by the user, else the first one. *)
Definition baseImage (st : State) : option Instance.t :=
  match
    find (fun img => bool_decide (Some (Instance.id img) = selectedImageId st))
         (images st)
  with
  | Some img => Some img
  | None => head (images st)
  end.

(** [resetState] (lines 41-45) *)
Definition resetState (st : State) : State :=
  set_selectedOptions ∅ (set_error None (set_rows [] st)).

Section Component.

(** The translation function of [vue-i18n], from message key to text. *)
Variable t : string -> string.

(** The host's [Date.prototype.toString]. *)
Variable Date_toString : Z -> string.

(** *** Value normalizer *)

(** [stringifyValue] (lines 60-72): the canonical key of a value. *)
Definition stringifyValue (value : JsValue) (property : Property.t) : string :=
  if nullish value then "__undefined__"
  else match value with
  | VArray items => JSON_stringify_array (Array_sort Date_toString items)
  | VScalar (SDate _ time) => Date_toISOString time
  | VScalar x =>
      if bool_decide (Property.type property = PropertyType.color)
      then ToString Date_toString x
      else JSON_stringify_scalar x
  end.

(** [formatValue] (lines 74-86): the display string of a value. *)
Definition formatValue (value : JsValue) (property : Property.t) : string :=
  if nullish value then ""
  else match value with
  | VArray items => Array_join Date_toString ", " items
  | VScalar (SDate _ time) => Date_toISOString time
  | VScalar x =>
      if bool_decide (Property.type property = PropertyType.checkbox)
      then (if truthy x then t "common.yes" else t "common.no")
      else ToString Date_toString x
  end.

(** *** Combiner *)

(** The body of [defined.forEach(v => ...)] in the tag branch. *)
Definition merge_tags (merged : list JsScalar) (v : JsValue) : list JsScalar :=
  match v with
  | VArray items => fold_left (Set_add SameValueZero) items merged
  | VScalar x => Set_add SameValueZero merged x
  end.

(** [combineValues] (lines 112-129) *)
Definition combineValues (values : list JsValue) (property : Property.t) : JsValue :=
  let defined := filter (fun v => defined v) values in
  if bool_decide (defined = []) then undefined
  else if isTag (Property.type property) then
    VArray (fold_left merge_tags defined [])
  else
    VStr (String.concat " -- " (map (fun v => formatValue v property) defined)).

(** *** Preview of the combined option *)

Section Preview.

(** [property.tags]: for a tag-typed property the lookup from tag identifier
    to tag descriptor, an object whose keys are the identifiers as property
    keys; absent for the other properties. *)
Variable Property_tags : Property.t -> option (gmap string Tag.t).

(** The body of [ids.forEach(id => ...)]: [property.tags?.[id]], kept when
    there is such a tag. *)
Definition push_tag (property : Property.t) (res : list Tag.t) (id : JsScalar)
    : list Tag.t :=
  match Property_tags property ≫= (λ tags, tags !! ToString Date_toString id) with
  | Some tag => res ++ [tag]
  | None => res
  end.

(** [getTags] (lines 88-98) *)
Definition getTags (value : JsValue) (property : Property.t) : list Tag.t :=
  let ids := match value with VArray items => items | VScalar x => [x] end in
  fold_left (push_tag property) ids [].

(** [combinedLabel] (lines 100-110) *)
Definition combinedLabel (values : list JsValue) (property : Property.t) : string :=
  let defined := filter (fun v => defined v) values in
  if bool_decide (defined = []) then t "none"
  else if isTag (Property.type property) then
    String.concat " -- "
      (filter (fun v => negb (String.eqb v ""))
         (map (fun v => String.concat " -- " (map Tag.value (getTags v property)))
              defined))
  else
    String.concat " -- " (map (fun v => formatValue v property) defined).

End Preview.

(** *** Row builder *)

Definition reserved_types : list PropertyType.t :=
  [PropertyType._folders; PropertyType._id; PropertyType._sha1;
   PropertyType._ahash; PropertyType._width; PropertyType._height].

(** The predicate of [data.propertyList.filter(...)]. *)
Definition mergeable (p : Property.t) : bool :=
  (0 <? Property.id p) && negb (Property.computed p)
  && negb (bool_decide (Property.type p ∈ reserved_types)).

(** The body of [values.forEach((value, index) => ...)]: one option per
    member holding a value. *)
Definition push_option (options : list MergeOption.t)
    (entry : JsValue * Instance.t) : list MergeOption.t :=
  let '(value, img) := entry in
  if nullish value then options
  else options ++
    [{| MergeOption.key := Number_toString (Instance.id img);
        MergeOption.value := value;
        MergeOption.sourceImageId := Some (Instance.id img) |}].

(** One iteration of [for (const property of properties)], on the rows
    built so far and the selection map. *)
Definition buildRows_step (groupImages : list Instance.t)
    (acc : list MergeRow.t * gmap Z string) (property : Property.t)
    : list MergeRow.t * gmap Z string :=
  let '(rows, selected) := acc in
  let values := map (fun img => Instance.get img (Property.id property)) groupImages in
  if negb (existsb defined values) then acc
  else
    let options := fold_left push_option (combine values groupImages) [] in
    let definedKeys :=
      map (fun v => stringifyValue v property) (filter (fun v => defined v) values) in
    let conflict := (1 <? length (Set_of String.eqb definedKeys))%nat in
    let options :=
      if conflict
      then options ++
        [{| MergeOption.key := "combined";
            MergeOption.value := combineValues values property;
            MergeOption.sourceImageId := None |}]
      else options in
    match options with
    | [] => acc
    | first :: _ =>
        let defaultKey :=
          match selected !! Property.id property with
          | Some key => key
          | None => if conflict then "combined" else MergeOption.key first
          end in
        (rows ++ [{| MergeRow.property := property;
                     MergeRow.options := options;
                     MergeRow.conflict := conflict |}],
         <[Property.id property := defaultKey]> selected)
    end.

(** [buildRows] (lines 131-169), reading [data.propertyList] from the data
    store. *)
Definition buildRows (propertyList : list Property.t) (st : State) : State :=
  let groupImages := images st in
  if bool_decide (groupImages = []) then set_rows [] st
  else
    let properties := filter (fun p => mergeable p) propertyList in
    let '(rows, selected) :=
      fold_left (buildRows_step groupImages) properties ([], selectedOptions st) in
    set_rows rows (set_selectedOptions selected st).

(** [onShow] (lines 47-53), with the payload of
    [modal.getData(ModalId.MERGE_CLUSTER)]. *)
Definition onShow (propertyList : list Property.t)
    (payload : option (list Instance.t)) (st : State) : State :=
  let st := set_groupData (Some (default [] payload)) st in
  let st := set_selectedImageId (Instance.id <$> head (images st)) st in
  buildRows propertyList (resetState st).

(** [onHide] (lines 55-58) *)
Definition onHide (st : State) : State :=
  set_groupData None (resetState st).

(** *** Commit builder *)

(** [row.options.find(o => o.key === key)], [key] being
    [selectedOptions[row.property.id]]. *)
Definition selected_option (selected : gmap Z string) (row : MergeRow.t)
    : option MergeOption.t :=
  let key := selected !! Property.id (MergeRow.property row) in
  find (fun o => bool_decide (Some (MergeOption.key o) = key)) (MergeRow.options row).

(** One iteration of [for (const row of mergeRows.value)]. *)
Definition commit_step (newInstance : Instance.t) (selected : gmap Z string)
    (commit : DbCommit.t) (row : MergeRow.t) : DbCommit.t :=
  match selected_option selected row with
  | None => commit
  | Some option =>
      if nullish (MergeOption.value option) then commit
      else
        match Property.mode (MergeRow.property row) with
        | PropertyMode.id =>
            {| DbCommit.instances := DbCommit.instances commit;
               DbCommit.instanceValues := DbCommit.instanceValues commit ++
                 [{| InstancePropertyValue.propertyId := Property.id (MergeRow.property row);
                     InstancePropertyValue.instanceId := Instance.id newInstance;
                     InstancePropertyValue.value := MergeOption.value option |}];
               DbCommit.imageValues := DbCommit.imageValues commit |}
        | _ =>
            {| DbCommit.instances := DbCommit.instances commit;
               DbCommit.instanceValues := DbCommit.instanceValues commit;
               DbCommit.imageValues := DbCommit.imageValues commit ++
                 [{| ImagePropertyValue.propertyId := Property.id (MergeRow.property row);
                     ImagePropertyValue.sha1 := Instance.sha1 newInstance;
                     ImagePropertyValue.value := MergeOption.value option |}] |}
        end
  end.

(** The commit assembled inside [try] (lines 177-200), up to the call of
    [sendCommit]. *)
Definition buildCommit (base : Instance.t) (rows : list MergeRow.t)
    (selected : gmap Z string) : DbCommit.t :=
  let newInstance := Instance.with_id base (-1) in
  fold_left (commit_step newInstance selected) rows
    {| DbCommit.instances := [newInstance];
       DbCommit.instanceValues := [];
       DbCommit.imageValues := [] |}.

(** [confirmMerge] (lines 171-202) up to [await data.sendCommit(commit)]: the
    new state and the commit handed to [sendCommit], if the routine got that
    far. *)
Definition confirmMerge (st : State) : State * option DbCommit.t :=
  match baseImage st with
  | None => (st, None)
  | Some base =>
      (set_error None (set_merging true st),
       Some (buildCommit base (mergeRows st) (selectedOptions st)))
  end.

(** [confirmMerge] (lines 203-209) after the promise of [sendCommit] settled:
    fulfilled ([ok]), the modal is hidden, which runs [onHide]; rejected, the
    error text is set.  Either way [merging] is cleared. *)
Definition confirmMerge_settled (ok : bool) (st : State) : State :=
  set_merging false
    (if ok then onHide st
     else set_error (Some (t "modals.merge_cluster.error")) st).

(** [someConflict = computed(() => mergeRows.value.some(r => r.conflict))] *)
Definition someConflict (st : State) : bool :=
  existsb MergeRow.conflict (mergeRows st).

(** *** The component as seen from the template *)

Inductive Event : Type :=
| Show (payload : option (list Instance.t))
| Hide
| ClickImage (id : Z)
| PickOption (propertyId : Z) (key : string)
| ClickConfirm
| Settled (ok : bool).

(** The component together with the calls of [sendCommit] that have not
    settled yet, oldest first.  The events are those of the template: the
    modal shown or hidden, a click on a member image, a radio button picked,
    a click on the confirm button, and the oldest pending call settling. *)
Record World : Type := mkWorld {
  state : State;
  pending : list DbCommit.t;
}.

(** [:class="{ disabled: merging || !baseImage }"] on the confirm button
    (line 279); [.bb.disabled] has [pointer-events: none] (lines 360-363), so
    a disabled button does not run its click handler. *)
Definition confirm_disabled (st : State) : bool :=
  merging st || bool_decide (baseImage st = None).

Definition step (propertyList : list Property.t) (w : World) (e : Event) : World :=
  match e with
  | Show payload => mkWorld (onShow propertyList payload (state w)) (pending w)
  | Hide => mkWorld (onHide (state w)) (pending w)
  | ClickImage id => mkWorld (set_selectedImageId (Some id) (state w)) (pending w)
  | PickOption propertyId key =>
      mkWorld (set_selectedOptions (<[propertyId := key]> (selectedOptions (state w))) (state w))
              (pending w)
  | ClickConfirm =>
      if confirm_disabled (state w) then w
      else
        let '(st, sent) := confirmMerge (state w) in
        mkWorld st (pending w ++ option_list sent)
  | Settled ok =>
      match pending w with
      | [] => w
      | _ :: rest => mkWorld (confirmMerge_settled ok (state w)) rest
      end
  end.

Definition run (propertyList : list Property.t) (w : World) (events : list Event) : World :=
  fold_left (step propertyList) events w.


(** *** Vocabulary of the statements *)

(** A schema the user may resolve: positive identifier, not computed, not
    one of the derived types. *)
Definition user_resolvable (S : Property.t) : Prop :=
  0 < Property.id S ∧ Property.computed S = false ∧
  Property.type S ≠ PropertyType._folders ∧ Property.type S ≠ PropertyType._id ∧
  Property.type S ≠ PropertyType._sha1 ∧ Property.type S ≠ PropertyType._ahash ∧
  Property.type S ≠ PropertyType._width ∧ Property.type S ≠ PropertyType._height.

#[global] Instance user_resolvable_dec S : Decision (user_resolvable S).
Proof. unfold user_resolvable. apply _. Defined.

(** Some member holds a value for [S] that is neither [undefined] nor
    [null]. *)
Definition has_defined_value (members : list Instance.t) (S : Property.t) : Prop :=
  Exists (λ m, defined (Instance.get m (Property.id S)) = true) members.

#[global] Instance has_defined_value_dec members S :
  Decision (has_defined_value members S).
Proof. unfold has_defined_value. apply _. Defined.

(** The members' values for [S], in member order, and the canonical keys of
    the defined ones. *)
Definition member_values (members : list Instance.t) (S : Property.t) : list JsValue :=
  map (λ m, Instance.get m (Property.id S)) members.

Definition canonical_keys (members : list Instance.t) (S : Property.t) : list string :=
  map (λ v, stringifyValue v S) (filter (λ v, defined v) (member_values members S)).

(** The option offered for member [m]. *)
Definition member_option (S : Property.t) (m : Instance.t) : MergeOption.t :=
  {| MergeOption.key := Number_toString (Instance.id m);
     MergeOption.value := Instance.get m (Property.id S);
     MergeOption.sourceImageId := Some (Instance.id m) |}.

(** The row of schema [S] over [members], in closed form. *)
Definition row_of (members : list Instance.t) (S : Property.t) : MergeRow.t :=
  let conflict := (1 <? length (Set_of String.eqb (canonical_keys members S)))%nat in
  {| MergeRow.property := S;
     MergeRow.options :=
       map (member_option S)
           (filter (λ m, defined (Instance.get m (Property.id S))) members)
       ++ (if conflict
           then [{| MergeOption.key := "combined";
                    MergeOption.value := combineValues (member_values members S) S;
                    MergeOption.sourceImageId := None |}]
           else []);
     MergeRow.conflict := conflict |}.

(** The default rule: the combined key for a conflicting row, else the key
    of the row's first option. *)
Definition default_key (row : MergeRow.t) : option string :=
  if MergeRow.conflict row then Some "combined"
  else MergeOption.key <$> head (MergeRow.options row).

(** The order the default comparator of [sort] arranges elements in. *)
Definition sort_le (x y : JsScalar) : Prop :=
  String.le (ToString Date_toString x) (ToString Date_toString y).

(** Tag identifiers of one kind: all numbers, or all strings. *)
Definition is_number (x : JsScalar) : bool :=
  match x with SNum _ => true | _ => false end.

Definition is_string (x : JsScalar) : bool :=
  match x with SStr _ => true | _ => false end.

Definition identifiers (items : list JsScalar) : Prop :=
  Forall (λ x, is_number x = true) items ∨ Forall (λ x, is_string x = true) items.

(** The identifiers referenced by the defined values, in iteration order:
    the elements of a sequence, or the value itself. *)
Definition referenced_ids (values : list JsValue) : list JsScalar :=
  flat_map (λ v, match v with VArray items => items | VScalar x => [x] end)
           (filter (λ v, defined v) values).

(** [l] without the repetitions of an element already seen. *)
Fixpoint first_seen (l : list JsScalar) : list JsScalar :=
  match l with
  | [] => []
  | x :: rest => x :: filter (λ y, y ≠ x) (first_seen rest)
  end.

(** The value a row resolves to under a selection: the value of the option
    the selected key names, when there is one and it holds a value. *)
Definition resolved_value (selected : gmap Z string) (row : MergeRow.t) : option JsValue :=
  match selected_option selected row with
  | Some option =>
      if defined (MergeOption.value option) then Some (MergeOption.value option) else None
  | None => None
  end.

(** The entries expected in the two lists of the change set. *)
Definition instance_entry (selected : gmap Z string) (row : MergeRow.t)
    : option InstancePropertyValue.t :=
  match Property.mode (MergeRow.property row), resolved_value selected row with
  | PropertyMode.id, Some value =>
      Some {| InstancePropertyValue.propertyId := Property.id (MergeRow.property row);
              InstancePropertyValue.instanceId := -1;
              InstancePropertyValue.value := value |}
  | _, _ => None
  end.

Definition image_entry (contentHash : string) (selected : gmap Z string)
    (row : MergeRow.t) : option ImagePropertyValue.t :=
  match Property.mode (MergeRow.property row), resolved_value selected row with
  | PropertyMode.sha1, Some value =>
      Some {| ImagePropertyValue.propertyId := Property.id (MergeRow.property row);
              ImagePropertyValue.sha1 := contentHash;
              ImagePropertyValue.value := value |}
  | _, _ => None
  end.

(** Rows of one property identifier agree on the scope. *)
Definition scopes_agree (rows : list MergeRow.t) : Prop :=
  Forall (λ r1,
    Forall (λ r2,
      Property.id (MergeRow.property r1) = Property.id (MergeRow.property r2) →
      Property.mode (MergeRow.property r1) = Property.mode (MergeRow.property r2))
    rows) rows.

#[global] Instance scopes_agree_dec rows : Decision (scopes_agree rows).
Proof. unfold scopes_agree. apply _. Defined.

(** The member [img] with a [null] entry for [propertyId] turned into a
    missing entry. *)
Definition forget_null (propertyId : Z) (img : Instance.t) : Instance.t :=
  match Instance.properties img !! propertyId with
  | Some (VScalar SNull) =>
      {| Instance.id := Instance.id img; Instance.sha1 := Instance.sha1 img;
         Instance.name := Instance.name img;
         Instance.properties := delete propertyId (Instance.properties img) |}
  | _ => img
  end.

(** Two members that differ at most by entries that are nullish in both:
    [null], [undefined] or missing. *)
Definition same_but_null (m m' : Instance.t) : Prop :=
  Instance.id m = Instance.id m' ∧ Instance.sha1 m = Instance.sha1 m' ∧
  ∀ P, Instance.get m P = Instance.get m' P ∨
       (nullish (Instance.get m P) = true ∧ nullish (Instance.get m' P) = true).

(** At most one call of [sendCommit] has not settled, and [merging] is set
    while there is one. *)
Definition one_in_flight (w : World) : Prop :=
  match pending w with
  | [] => True
  | [_] => merging (state w) = true
  | _ => False
  end.

(** *** Sample data *)

(** English messages for the two keys the normalizer asks for. *)
Definition messages_en (key : string) : string :=
  if String.eqb key "common.yes" then "Yes"
  else if String.eqb key "common.no" then "No"
  else key.

(** A host that prints dates as ISO timestamps. *)
Definition host_Date_toString (time : Z) : string := Date_toISOString time.

Definition p_name : Property.t :=
  Property.mk 1 "name" PropertyType.text PropertyMode.sha1 false.

Definition p_tags : Property.t :=
  Property.mk 2 "tags" PropertyType.multi_tags PropertyMode.id false.

Definition p_color : Property.t :=
  Property.mk 3 "color" PropertyType.color PropertyMode.id false.

Definition p_width : Property.t :=
  Property.mk 4 "width" PropertyType._width PropertyMode.sha1 false.

Definition p_score : Property.t :=
  Property.mk 5 "score" PropertyType.number PropertyMode.sha1 true.

Definition member_1 : Instance.t :=
  Instance.mk 1 "h1" "one"
    {[ 1 := VStr "A"; 2 := VArray [SStr "a"; SStr "b"]; 4 := VNum 640 ]}.

Definition member_2 : Instance.t :=
  Instance.mk 2 "h2" "two"
    {[ 1 := VStr "B"; 2 := VArray [SStr "b"; SStr "a"]; 5 := VNum 7 ]}.

(** A member whose only entry is [null]. *)
Definition member_3 : Instance.t := Instance.mk 3 "h3" "three" {[ 1 := null ]}.

Definition catalog : list Property.t := [p_width; p_name; p_score; p_tags; p_color].

(** The modal opened on [members], nothing built or selected yet. *)
Definition opened (members : list Instance.t) : State :=
  {| groupData := Some members; selectedImageId := Instance.id <$> head members;
     mergeRows := []; selectedOptions := ∅; merging := false; error := None |}.

(** The row of [p_name] as built for [member_1] alone. *)
Definition row_name_1 : MergeRow.t :=
  {| MergeRow.property := p_name;
     MergeRow.options :=
       [{| MergeOption.key := "1"; MergeOption.value := VStr "A";
           MergeOption.sourceImageId := Some 1 |}];
     MergeRow.conflict := false |}.

(** The row of [p_tags] as built for [member_1] alone. *)
Definition row_tags_1 : MergeRow.t :=
  {| MergeRow.property := p_tags;
     MergeRow.options :=
       [{| MergeOption.key := "1"; MergeOption.value := VArray [SStr "a"; SStr "b"];
           MergeOption.sourceImageId := Some 1 |}];
     MergeRow.conflict := false |}.

(** An em dash between spaces, as UTF-8 bytes. *)
Definition em_dash_separator : string :=
  String " " (String "226" (String "128" (String "148" (String " " "")))).

(** [member_1] alone, with the selection left over from a larger cluster:
    the key of a member that is gone. *)
Definition stale_cluster : State :=
  set_selectedOptions {[ 1 := "2" ]} (opened [member_1]).

(** [member_1] alone, while a submit is in flight. *)
Definition submitting_cluster : State :=
  set_merging true (set_rows [row_name_1; row_tags_1]
    (set_selectedOptions {[ 1 := "1"; 2 := "1" ]} (opened [member_1]))).

(** The row of [p_name] as built for [member_1] and [member_2]. *)
Definition row_name_12 : MergeRow.t :=
  {| MergeRow.property := p_name;
     MergeRow.options :=
       [{| MergeOption.key := "1"; MergeOption.value := VStr "A";
           MergeOption.sourceImageId := Some 1 |};
        {| MergeOption.key := "2"; MergeOption.value := VStr "B";
           MergeOption.sourceImageId := Some 2 |};
        {| MergeOption.key := "combined"; MergeOption.value := VStr "A -- B";
           MergeOption.sourceImageId := None |}];
     MergeRow.conflict := true |}.

(** [member_1] alone with its two rows, the selection for [p_name] naming a
    member that is gone. *)
Definition unresolvable_cluster : State :=
  set_rows [row_name_1; row_tags_1]
    (set_selectedOptions {[ 1 := "2"; 2 := "1" ]} (opened [member_1])).

(** The rows are those of the cluster on display, and each has a selected
    key. *)
Definition displayed (propertyList : list Property.t) (st : State) : Prop :=
  mergeRows st =
    map (row_of (images st))
        (filter (λ S, user_resolvable S ∧ has_defined_value (images st) S) propertyList)
  ∧ ∀ row, row ∈ mergeRows st →
           is_Some (selectedOptions st !! Property.id (MergeRow.property row)).

(** Reading back the first code unit of the inside of a JSON string literal:
    the code unit and what follows its escape, or nothing at the closing
    quote or at a malformed escape. *)
Definition hex_value (c : ascii) : option N :=
  let n := N_of_ascii c in
  if (48 <=? n)%N && (n <=? 57)%N then Some (n - 48)%N
  else if (97 <=? n)%N && (n <=? 102)%N then Some (n - 87)%N
  else None.

Definition json_unescape_head (s : string) : option (ascii * string) :=
  match s with
  | EmptyString => None
  | String c rest =>
      if Ascii.eqb c dquote then None
      else if Ascii.eqb c backslash then
        match rest with
        | String "b" r => Some ("008"%char, r)
        | String "t" r => Some ("009"%char, r)
        | String "n" r => Some ("010"%char, r)
        | String "f" r => Some ("012"%char, r)
        | String "r" r => Some ("013"%char, r)
        | String "u" (String "0" (String "0" (String h (String l r)))) =>
            match hex_value h, hex_value l with
            | Some a, Some b => Some (ascii_of_N (16 * a + b), r)
            | _, _ => None
            end
        | String d r =>
            if Ascii.eqb d dquote || Ascii.eqb d backslash then Some (d, r) else None
        | EmptyString => None
        end
      else Some (c, rest)
  end.

(** A boolean, a number or a string. *)
Definition is_plain (x : JsScalar) : bool :=
  match x with SBool _ | SNum _ | SStr _ => true | _ => false end.


(** *** More sample data *)

Definition p_count : Property.t :=
  Property.mk 6 "count" PropertyType.number PropertyMode.sha1 false.

Definition member_4 : Instance.t := Instance.mk 4 "h4" "four" {[ 6 := VNum 3 ]}.
Definition member_5 : Instance.t := Instance.mk 5 "h5" "five" {[ 6 := VNum 4 ]}.
Definition member_6 : Instance.t := Instance.mk 6 "h6" "six" {[ 6 := VNum 3 ]}.

(** The row of [p_count] for [member_4] and [member_5], which disagree. *)
Definition row_count_45 : MergeRow.t :=
  {| MergeRow.property := p_count;
     MergeRow.options :=
       [{| MergeOption.key := "4"; MergeOption.value := VNum 3;
           MergeOption.sourceImageId := Some 4 |};
        {| MergeOption.key := "5"; MergeOption.value := VNum 4;
           MergeOption.sourceImageId := Some 5 |};
        {| MergeOption.key := "combined"; MergeOption.value := VStr "3 -- 4";
           MergeOption.sourceImageId := None |}];
     MergeRow.conflict := true |}.

(** The row of [p_count] for [member_4] and [member_6], which agree. *)
Definition row_count_46 : MergeRow.t :=
  {| MergeRow.property := p_count;
     MergeRow.options :=
       [{| MergeOption.key := "4"; MergeOption.value := VNum 3;
           MergeOption.sourceImageId := Some 4 |};
        {| MergeOption.key := "6"; MergeOption.value := VNum 3;
           MergeOption.sourceImageId := Some 6 |}];
     MergeRow.conflict := false |}.

(** A catalog in which only [p_tags] has a tag table, with two tags. *)
Definition tag_table (p : Property.t) : option (gmap string Tag.t) :=
  if bool_decide (Property.id p = 2)
  then Some {[ "1" := Tag.mk 1 "cat"; "2" := Tag.mk 2 "dog" ]}
  else None.

(** ** Part IV: properties *)

(** *** Loops that push onto an array *)

Lemma fold_left_flat_map {A B C : Type} (f : C → B → C) (g : A → list B)
    (l : list A) (acc : C) :
  fold_left f (flat_map g l) acc = fold_left (λ acc x, fold_left f (g x) acc) l acc.
Proof.
  revert acc. induction l as [|x l IH]; intros acc; simpl; [done|].
  by rewrite fold_left_app, IH.
Qed.

(** *** Sets in insertion order *)

Section SetOf.
Context {A : Type} (same : A → A → bool) (P : A → Prop).
Hypothesis same_eq : ∀ x y, P x → P y → same x y = true ↔ x = y.

Lemma existsb_same (x : A) (s : list A) :
  P x → Forall P s → existsb (same x) s = true ↔ x ∈ s.
Proof.
  intros Hx Hs. rewrite existsb_exists. split.
  - intros (y & Hy & Hxy). apply list_elem_of_In in Hy.
    rewrite Forall_forall in Hs.
    apply same_eq in Hxy; [by subst|done|by apply Hs].
  - intros Hin. exists x. split; [by apply list_elem_of_In|].
    by apply same_eq.
Qed.

Lemma Set_add_elem (s : list A) (x y : A) :
  P x → Forall P s → y ∈ Set_add same s x ↔ y ∈ s ∨ y = x.
Proof.
  intros Hx Hs. unfold Set_add.
  destruct (existsb (same x) s) eqn:E.
  - apply existsb_same in E; [|done..]. split; [by left|].
    intros [?| ->]; done.
  - rewrite elem_of_app, list_elem_of_singleton. done.
Qed.

Lemma Set_add_NoDup (s : list A) (x : A) :
  P x → Forall P s → NoDup s → NoDup (Set_add same s x).
Proof.
  intros Hx Hs Hnd. unfold Set_add.
  destruct (existsb (same x) s) eqn:E; [done|].
  apply NoDup_app. split_and!; [done| |apply NoDup_singleton].
  intros y Hy ->%list_elem_of_singleton.
  apply (existsb_same _ _ Hx Hs) in Hy. congruence.
Qed.

Lemma Set_add_Forall (s : list A) (x : A) :
  P x → Forall P s → Forall P (Set_add same s x).
Proof.
  intros Hx Hs. unfold Set_add. destruct (existsb _ _); [done|].
  apply Forall_app. auto.
Qed.

Lemma fold_Set_add (xs s : list A) :
  Forall P xs → Forall P s → NoDup s →
  let s' := fold_left (Set_add same) xs s in
  Forall P s' ∧ NoDup s' ∧ ∀ y, y ∈ s' ↔ y ∈ s ∨ y ∈ xs.
Proof.
  revert s. induction xs as [|x xs IH]; intros s Hxs Hs Hnd; simpl.
  - split_and!; [done..|]. intros y. rewrite elem_of_nil. tauto.
  - apply Forall_cons in Hxs as [Hx Hxs].
    destruct (IH (Set_add same s x)) as (HP & HN & Hel);
      auto using Set_add_Forall, Set_add_NoDup.
    split_and!; [done..|]. intros y.
    rewrite Hel, Set_add_elem, elem_of_cons by done. tauto.
Qed.

Lemma Set_of_spec (xs : list A) :
  Forall P xs →
  NoDup (Set_of same xs) ∧ ∀ y, y ∈ Set_of same xs ↔ y ∈ xs.
Proof.
  intros Hxs.
  destruct (fold_Set_add xs [] Hxs) as (_ & HN & Hel);
    [constructor|constructor|].
  split; [done|]. intros y. unfold Set_of. rewrite Hel, elem_of_nil. tauto.
Qed.

(** A set has more than one member exactly when two of the listed
    elements differ. *)
Lemma Set_of_size_gt_1 (xs : list A) :
  Forall P xs →
  (1 <? length (Set_of same xs))%nat = true ↔
  ∃ x y, x ∈ xs ∧ y ∈ xs ∧ x ≠ y.
Proof.
  intros Hxs. destruct (Set_of_spec xs Hxs) as [HN Hel].
  rewrite Nat.ltb_lt. split.
  - destruct (Set_of same xs) as [|x [|y s]] eqn:E; simpl; [lia..|].
    intros _. exists x, y. rewrite <- !Hel.
    split_and!; [by left|by right; left|].
    intros ->. apply NoDup_cons in HN as [Hx _]. apply Hx. by left.
  - intros (x & y & Hx & Hy & Hne).
    apply Hel in Hx, Hy.
    destruct (Set_of same xs) as [|a [|b s]]; simpl; [|exfalso|lia].
    + by apply elem_of_nil in Hx.
    + apply list_elem_of_singleton in Hx, Hy. congruence.
Qed.
End SetOf.

(** *** First-seen order *)

Lemma SameValueZero_eq (x y : JsScalar) :
  is_number x = true ∨ is_string x = true →
  is_number y = true ∨ is_string y = true →
  SameValueZero x y = true ↔ x = y.
Proof.
  destruct x, y; simpl; intros [?|?] [?|?]; try discriminate.
  - rewrite Z.eqb_eq. split; congruence.
  - split; discriminate.
  - split; discriminate.
  - rewrite String.eqb_eq. split; congruence.
Qed.

Lemma identifiers_plain (items : list JsScalar) :
  identifiers items →
  Forall (λ x, is_number x = true ∨ is_string x = true) items.
Proof. intros [H|H]; eapply Forall_impl; eauto. Qed.

Lemma first_seen_elem (l : list JsScalar) (y : JsScalar) :
  y ∈ first_seen l ↔ y ∈ l.
Proof.
  induction l as [|x l IH]; simpl; [done|].
  rewrite !elem_of_cons, list_elem_of_filter, IH.
  destruct (decide (y = x)); tauto.
Qed.

Lemma first_seen_NoDup (l : list JsScalar) : NoDup (first_seen l).
Proof.
  induction l as [|x l IH]; simpl; constructor.
  - rewrite list_elem_of_filter. intros [Hne _]. by apply Hne.
  - by apply NoDup_filter.
Qed.

Lemma fold_Set_add_first_seen (xs s : list JsScalar) :
  Forall (λ x, is_number x = true ∨ is_string x = true) xs →
  Forall (λ x, is_number x = true ∨ is_string x = true) s →
  fold_left (Set_add SameValueZero) xs s = s ++ filter (λ y, y ∉ s) (first_seen xs).
Proof.
  revert s. induction xs as [|x xs IH]; intros s Hxs Hs; simpl.
  - by rewrite filter_nil, app_nil_r.
  - apply Forall_cons in Hxs as [Hx Hxs].
    unfold Set_add at 2.
    destruct (existsb (SameValueZero x) s) eqn:E.
    + apply (existsb_same _ _ SameValueZero_eq) in E; [|done..].
      rewrite IH by done. f_equal.
      rewrite filter_cons_False by (intros Hx'; by apply Hx').
      rewrite list_filter_filter. apply list_filter_iff.
      intros y. split; [|tauto]. intros Hy. split; [done|]. by intros ->.
    + assert (x ∉ s) as Hxs'.
      { intros Hin. apply (existsb_same _ _ SameValueZero_eq) in Hin; [|done..].
        congruence. }
      rewrite IH; [|done|apply Forall_app; auto].
      rewrite <- app_assoc. f_equal. simpl.
      rewrite filter_cons_True by done. f_equal.
      rewrite list_filter_filter. apply list_filter_iff.
      intros y. rewrite elem_of_app, list_elem_of_singleton. tauto.
Qed.

(** *** Strings and numbers *)

Lemma String_length_app (s1 s2 : string) :
  String.length (s1 +:+ s2) = (String.length s1 + String.length s2)%nat.
Proof.
  induction s1 as [|c s1 IH]; [done|].
  change (S (String.length (s1 +:+ s2)) = S (String.length s1 + String.length s2)).
  by rewrite IH.
Qed.

Lemma to_int_proper (n : Z) :
  Z.to_int n ≠ Decimal.Pos Decimal.Nil ∧ Z.to_int n ≠ Decimal.Neg Decimal.Nil.
Proof.
  destruct n as [|p|p]; simpl; split; try discriminate;
    intros [= H]; by apply DecimalPos.Unsigned.to_uint_nonnil in H.
Qed.

Lemma Number_toString_inj (a b : Z) :
  Number_toString a = Number_toString b → a = b.
Proof.
  unfold Number_toString. intros H.
  apply DecimalZ.to_int_inj.
  destruct (to_int_proper a) as [Ha1 Ha2], (to_int_proper b) as [Hb1 Hb2].
  apply (f_equal NilZero.int_of_string) in H.
  rewrite !NilZero.isi in H by done. congruence.
Qed.

Lemma Number_toString_not_sentinel (n : Z) : Number_toString n ≠ "__undefined__".
Proof.
  unfold Number_toString. intros H.
  destruct (to_int_proper n) as [H1 H2].
  apply (f_equal NilZero.int_of_string) in H.
  rewrite NilZero.isi in H by done. discriminate.
Qed.

Lemma pad_length (width : nat) (n : Z) (acc : string) :
  String.length (pad width n acc) = (width + String.length acc)%nat.
Proof.
  revert n acc. induction width as [|w IH]; intros n acc; simpl; [done|].
  rewrite IH. simpl. lia.
Qed.

Lemma Date_toISOString_length (time : Z) :
  (24 ≤ String.length (Date_toISOString time))%nat.
Proof.
  unfold Date_toISOString.
  destruct (civil_from_days _) as [[y m] d].
  rewrite !String_length_app, !pad_length.
  assert (4 ≤ String.length (year_string y))%nat.
  { unfold year_string. destruct (_ && _).
    - rewrite pad_length. simpl. lia.
    - rewrite String_length_app, pad_length. lia. }
  simpl. lia.
Qed.

Lemma Date_toISOString_not_sentinel (time : Z) :
  Date_toISOString time ≠ "__undefined__".
Proof.
  intros H. pose proof (Date_toISOString_length time) as Hlen.
  rewrite H in Hlen. simpl in Hlen. lia.
Qed.

(** *** The default sort *)

Lemma sort_before_false (x y : JsScalar) :
  sort_before Date_toString y x = false → sort_le x y.
Proof.
  unfold sort_le, sort_before, String.ltb, String.le, String.leb.
  rewrite (String.compare_antisym (ToString Date_toString x)).
  by destruct (_ ?= _)%string.
Qed.

Lemma sort_before_true (x y : JsScalar) :
  sort_before Date_toString y x = true → sort_le y x.
Proof.
  unfold sort_le, sort_before, String.ltb, String.le, String.leb.
  by destruct (_ ?= _)%string.
Qed.

Lemma sort_insert_Permutation (x : JsScalar) (l : list JsScalar) :
  sort_insert Date_toString x l ≡ₚ x :: l.
Proof.
  induction l as [|y l IH]; simpl; [done|].
  destruct (sort_before _ y x); [|done].
  rewrite IH. apply Permutation_swap.
Qed.

Lemma sort_insert_sorted (x : JsScalar) (l : list JsScalar) :
  StronglySorted sort_le l → StronglySorted sort_le (sort_insert Date_toString x l).
Proof.
  induction 1 as [|y l Hl IH Hy]; simpl.
  - repeat constructor.
  - destruct (sort_before _ y x) eqn:E.
    + constructor; [done|].
      rewrite sort_insert_Permutation. constructor; [|done].
      by apply sort_before_true.
    + apply sort_before_false in E.
      constructor; [by constructor|].
      constructor; [done|].
      eapply Forall_impl; [exact Hy|].
      intros z Hz. unfold sort_le in *. by etrans.
Qed.

Lemma insertion_sort_Permutation (l : list JsScalar) :
  foldr (sort_insert Date_toString) [] l ≡ₚ l.
Proof.
  induction l as [|x l IH]; simpl; [done|].
  by rewrite sort_insert_Permutation, IH.
Qed.

Lemma insertion_sort_sorted (l : list JsScalar) :
  StronglySorted sort_le (foldr (sort_insert Date_toString) [] l).
Proof.
  induction l as [|x l IH]; simpl; [constructor|].
  by apply sort_insert_sorted.
Qed.

Lemma identifiers_ToString_inj (items : list JsScalar) (x y : JsScalar) :
  identifiers items → x ∈ items → y ∈ items →
  ToString Date_toString x = ToString Date_toString y → x = y.
Proof.
  intros [H|H] Hx Hy; rewrite Forall_forall in H;
    apply H in Hx; apply H in Hy;
    destruct x; try discriminate; destruct y; try discriminate; simpl.
  - by intros ->%Number_toString_inj.
  - by intros ->.
Qed.

Lemma identifiers_no_undefined (items : list JsScalar) :
  identifiers items →
  filter (λ x, negb (is_undefined x)) items = items ∧ filter is_undefined items = [].
Proof.
  intros Hid. apply identifiers_plain in Hid.
  induction Hid as [|x l Hx Hl [IH1 IH2]]; [done|].
  assert (is_undefined x = false) as Hu by (destruct x, Hx; done).
  rewrite filter_cons_True, filter_cons_False, IH1, IH2; [done|..];
    rewrite Hu; simpl; auto.
Qed.

Lemma identifiers_Permutation (l1 l2 : list JsScalar) :
  l1 ≡ₚ l2 → identifiers l1 → identifiers l2.
Proof. intros Hp [H|H]; [left|right]; by rewrite <- Hp. Qed.

(** Sorting forgets the order identifiers were listed in. *)
Lemma Array_sort_Permutation (l1 l2 : list JsScalar) :
  identifiers l1 → l1 ≡ₚ l2 →
  Array_sort Date_toString l1 = Array_sort Date_toString l2.
Proof.
  intros Hid Hp. unfold Array_sort.
  destruct (identifiers_no_undefined l1 Hid) as [-> ->].
  destruct (identifiers_no_undefined l2 (identifiers_Permutation _ _ Hp Hid)) as [-> ->].
  f_equal.
  apply (StronglySorted_unique_strong sort_le);
    [|apply insertion_sort_sorted..|by rewrite !insertion_sort_Permutation].
  intros x y Hx Hy Hxy Hyx.
  rewrite insertion_sort_Permutation in Hx, Hy. rewrite <- Hp in Hy.
  apply (identifiers_ToString_inj l1); [done..|].
  unfold sort_le in *. by apply (anti_symm String.le).
Qed.

(** *** The row builder, loop by loop *)

Lemma mergeable_spec (S : Property.t) : mergeable S ↔ user_resolvable S.
Proof.
  unfold mergeable, user_resolvable, reserved_types.
  rewrite !andb_True, !negb_True, Is_true_true, Z.ltb_lt, bool_decide_spec,
    !elem_of_cons, elem_of_nil.
  destruct (Property.computed S); simpl; intuition congruence.
Qed.

Lemma existsb_defined (members : list Instance.t) (S : Property.t) :
  existsb defined (member_values members S) = bool_decide (has_defined_value members S).
Proof.
  apply eq_true_iff_eq. rewrite bool_decide_eq_true.
  unfold member_values, has_defined_value.
  rewrite existsb_exists, Exists_exists. split.
  - intros (v & Hin & Hv). apply in_map_iff in Hin as (m & <- & Hm).
    exists m. by rewrite list_elem_of_In.
  - intros (m & Hm & Hv). exists (Instance.get m (Property.id S)).
    split; [|done]. apply in_map_iff. exists m. by rewrite <- list_elem_of_In.
Qed.

Lemma member_options_fold (members : list Instance.t) (S : Property.t)
    (acc : list MergeOption.t) :
  fold_left push_option (combine (member_values members S) members) acc =
  acc ++ map (member_option S)
             (filter (λ m, defined (Instance.get m (Property.id S))) members).
Proof.
  unfold member_values. revert acc.
  induction members as [|m members IH]; intros acc; cbn [map combine fold_left].
  - by rewrite app_nil_r.
  - rewrite IH. unfold push_option.
    destruct (nullish (Instance.get m (Property.id S))) eqn:E.
    + rewrite filter_cons_False; [done|]. unfold defined. rewrite E. simpl. tauto.
    + rewrite filter_cons_True; [|unfold defined; rewrite E; exact I].
      by rewrite <- app_assoc.
Qed.

Lemma member_options_nonempty (members : list Instance.t) (S : Property.t) :
  has_defined_value members S →
  ∃ m rest, filter (λ m, defined (Instance.get m (Property.id S))) members = m :: rest.
Proof.
  unfold has_defined_value. rewrite Exists_exists. intros (m & Hin & Hm).
  destruct (filter _ members) as [|m' rest] eqn:E; [|by eauto].
  assert (m ∈ filter (λ m, defined (Instance.get m (Property.id S))) members) as Hf.
  { apply list_elem_of_filter. split; [by rewrite Hm|done]. }
  rewrite E in Hf. by apply elem_of_nil in Hf.
Qed.

Lemma buildRows_step_skip (members : list Instance.t) (rows : list MergeRow.t)
    (selected : gmap Z string) (S : Property.t) :
  ¬ has_defined_value members S →
  buildRows_step members (rows, selected) S = (rows, selected).
Proof.
  intros Hno. unfold buildRows_step.
  fold (member_values members S).
  rewrite existsb_defined, bool_decide_eq_false_2; done.
Qed.

Lemma buildRows_step_row (members : list Instance.t) (rows : list MergeRow.t)
    (selected : gmap Z string) (S : Property.t) :
  has_defined_value members S →
  ∃ key, default_key (row_of members S) = Some key ∧
    buildRows_step members (rows, selected) S =
    (rows ++ [row_of members S],
     <[Property.id S := default key (selected !! Property.id S)]> selected).
Proof.
  intros Hhas. unfold buildRows_step.
  fold (member_values members S).
  rewrite existsb_defined, bool_decide_eq_true_2 by done. simpl.
  rewrite member_options_fold. simpl.
  fold (canonical_keys members S).
  unfold default_key, row_of. simpl.
  destruct (member_options_nonempty members S Hhas) as (m & rest & ->).
  destruct (1 <? length (Set_of String.eqb (canonical_keys members S)))%nat; simpl.
  - exists "combined". split; [done|].
    by destruct (selected !! Property.id S).
  - exists (Number_toString (Instance.id m)). split; [done|].
    rewrite ?app_nil_r. by destruct (selected !! Property.id S).
Qed.

Lemma buildRows_fold (members : list Instance.t) (properties : list Property.t)
    (rows : list MergeRow.t) (selected : gmap Z string) :
  (fold_left (buildRows_step members) properties (rows, selected)).1 =
    rows ++ map (row_of members) (filter (has_defined_value members) properties) ∧
  ∀ P, (fold_left (buildRows_step members) properties (rows, selected)).2 !! P =
    match selected !! P with
    | Some key => Some key
    | None =>
        find (λ row, bool_decide (Property.id (MergeRow.property row) = P))
             (map (row_of members) (filter (has_defined_value members) properties))
        ≫= default_key
    end.
Proof.
  revert rows selected.
  induction properties as [|S properties IH]; intros rows selected; cbn [fold_left].
  - simpl. split; [by rewrite app_nil_r|]. intros P. by destruct (selected !! P).
  - destruct (decide (has_defined_value members S)) as [Hhas|Hno].
    + destruct (buildRows_step_row members rows selected S Hhas) as (key & Hkey & ->).
      destruct (IH (rows ++ [row_of members S])
                   (<[Property.id S := default key (selected !! Property.id S)]> selected))
        as [Hrows Hsel].
      rewrite filter_cons_True by done. cbn [map find].
      split; [by rewrite Hrows, <- app_assoc|].
      intros P. rewrite Hsel.
      destruct (decide (Property.id S = P)) as [<-|Hne].
      * rewrite lookup_insert_eq.
        change (MergeRow.property (row_of members S)) with S.
        rewrite bool_decide_eq_true_2 by done. cbn [mbind option_bind].
        rewrite Hkey. by destruct (selected !! Property.id S).
      * rewrite lookup_insert_ne by done.
        change (MergeRow.property (row_of members S)) with S.
        by rewrite bool_decide_eq_false_2 by done.
    + rewrite buildRows_step_skip by done.
      rewrite filter_cons_False by done. apply IH.
Qed.

Lemma filter_no_member (propertyList : list Property.t) :
  filter (λ S, user_resolvable S ∧ has_defined_value [] S) propertyList = [].
Proof.
  induction propertyList as [|S l IH]; [done|].
  rewrite filter_cons_False; [done|].
  intros [_ H]. by apply Exists_nil in H.
Qed.

Lemma buildRows_rows (propertyList : list Property.t) (st : State) :
  mergeRows (buildRows propertyList st) =
  map (row_of (images st))
      (filter (λ S, user_resolvable S ∧ has_defined_value (images st) S) propertyList).
Proof.
  unfold buildRows. case_bool_decide as Hempty.
  - simpl. by rewrite Hempty, filter_no_member.
  - pose proof (buildRows_fold (images st) (filter (λ p, mergeable p) propertyList)
                  [] (selectedOptions st)) as [Hrows _].
    destruct (fold_left _ _ _) as [rows selected]. simpl in *.
    rewrite Hrows, list_filter_filter. f_equal.
    apply list_filter_iff. intros S. rewrite mergeable_spec. tauto.
Qed.

Lemma buildRows_selection (propertyList : list Property.t) (st : State) (P : Z) :
  selectedOptions (buildRows propertyList st) !! P =
  match selectedOptions st !! P with
  | Some key => Some key
  | None =>
      find (λ row, bool_decide (Property.id (MergeRow.property row) = P))
           (mergeRows (buildRows propertyList st))
      ≫= default_key
  end.
Proof.
  rewrite buildRows_rows.
  unfold buildRows. case_bool_decide as Hempty.
  - simpl. rewrite Hempty, filter_no_member. simpl.
    by destruct (selectedOptions st !! P).
  - pose proof (buildRows_fold (images st) (filter (λ p, mergeable p) propertyList)
                  [] (selectedOptions st)) as [_ Hsel].
    destruct (fold_left _ _ _) as [rows selected]. simpl in *.
    rewrite Hsel, list_filter_filter.
    rewrite (list_filter_iff _ (λ S, user_resolvable S ∧ has_defined_value (images st) S));
      [done|].
    intros S. rewrite mergeable_spec. tauto.
Qed.

Lemma row_in_buildRows (propertyList : list Property.t) (st : State) (row : MergeRow.t) :
  row ∈ mergeRows (buildRows propertyList st) →
  row = row_of (images st) (MergeRow.property row) ∧
  MergeRow.property row ∈ propertyList ∧
  user_resolvable (MergeRow.property row) ∧
  has_defined_value (images st) (MergeRow.property row).
Proof.
  rewrite buildRows_rows, list_elem_of_fmap.
  intros (S & -> & HS). apply list_elem_of_filter in HS as [[? ?] ?].
  done.
Qed.

Lemma conflict_row_of (members : list Instance.t) (S : Property.t) :
  MergeRow.conflict (row_of members S) = true ↔
  ∃ k1 k2, k1 ∈ canonical_keys members S ∧ k2 ∈ canonical_keys members S ∧ k1 ≠ k2.
Proof.
  change (MergeRow.conflict (row_of members S))
    with (1 <? length (Set_of String.eqb (canonical_keys members S)))%nat.
  apply (Set_of_size_gt_1 String.eqb (λ _, True)).
  - intros x y _ _. apply String.eqb_eq.
  - by apply Forall_forall.
Qed.

Lemma stringifyValue_Permutation (items1 items2 : list JsScalar) (S : Property.t) :
  identifiers items1 → items1 ≡ₚ items2 →
  stringifyValue (VArray items1) S = stringifyValue (VArray items2) S.
Proof.
  intros Hid Hp. unfold stringifyValue. simpl.
  by rewrite (Array_sort_Permutation items1 items2).
Qed.

(** *** The row builder: rows, conflicts and selection *)

(** C1: [buildRows] emits a row for schema [S] if and only if [S] is in the
    schema list, is user-resolvable (positive identifier, not computed, not a
    reserved derived type) and at least one member has a defined value for
    it; the rows follow the order of the schema list; with no member the row
    list is empty. *)
Theorem buildRows_row_iff (propertyList : list Property.t) (st : State) :
  map MergeRow.property (mergeRows (buildRows propertyList st)) =
    filter (λ S, user_resolvable S ∧ has_defined_value (images st) S) propertyList
  ∧ (∀ S, S ∈ map MergeRow.property (mergeRows (buildRows propertyList st)) ↔
          S ∈ propertyList ∧ user_resolvable S ∧ has_defined_value (images st) S)
  ∧ map MergeRow.property (mergeRows (buildRows propertyList st)) `sublist_of` propertyList
  ∧ (images st = [] → mergeRows (buildRows propertyList st) = []).
Proof.
  assert (map MergeRow.property (mergeRows (buildRows propertyList st)) =
    filter (λ S, user_resolvable S ∧ has_defined_value (images st) S) propertyList) as Heq.
  { rewrite buildRows_rows, map_map. apply map_id. }
  split_and!.
  - done.
  - intros S. rewrite Heq, list_elem_of_filter. tauto.
  - rewrite Heq. apply sublist_filter.
  - intros Hempty. rewrite buildRows_rows, Hempty. by rewrite filter_no_member.
Qed.

(** C2: the conflict flag of a built row is true if and only if two of the
    canonical keys of the members' defined values differ; the canonical key
    of a sequence of identifiers does not depend on their order, so two
    members holding the same identifiers in different orders do not
    conflict. *)
Theorem conflict_iff_distinct_keys :
  (∀ propertyList st row,
     row ∈ mergeRows (buildRows propertyList st) →
     MergeRow.conflict row = true ↔
     ∃ k1 k2, k1 ∈ canonical_keys (images st) (MergeRow.property row) ∧
              k2 ∈ canonical_keys (images st) (MergeRow.property row) ∧ k1 ≠ k2)
  ∧ (∀ items1 items2 S,
       identifiers items1 → items1 ≡ₚ items2 →
       stringifyValue (VArray items1) S = stringifyValue (VArray items2) S)
  ∧ (∀ propertyList st m1 m2 items1 items2 row,
       images st = [m1; m2] →
       row ∈ mergeRows (buildRows propertyList st) →
       Instance.get m1 (Property.id (MergeRow.property row)) = VArray items1 →
       Instance.get m2 (Property.id (MergeRow.property row)) = VArray items2 →
       identifiers items1 → items1 ≡ₚ items2 →
       MergeRow.conflict row = false).
Proof.
  split_and!.
  - intros propertyList st row Hrow.
    apply row_in_buildRows in Hrow as [Hrow _].
    rewrite Hrow at 1. apply conflict_row_of.
  - apply stringifyValue_Permutation.
  - intros propertyList st m1 m2 items1 items2 row Himgs Hrow H1 H2 Hid Hp.
    apply row_in_buildRows in Hrow as [Hrow _].
    apply not_true_is_false. rewrite Hrow, conflict_row_of.
    intros (k1 & k2 & Hk1 & Hk2 & Hne). apply Hne.
    unfold canonical_keys, member_values in Hk1, Hk2.
    rewrite Himgs in Hk1, Hk2. cbn [map] in Hk1, Hk2.
    rewrite H1, H2 in Hk1, Hk2.
    rewrite !filter_cons_True, filter_nil in Hk1, Hk2 by done.
    cbn [map] in Hk1, Hk2.
    rewrite <- (stringifyValue_Permutation items1 items2) in Hk1, Hk2 by done.
    rewrite !elem_of_cons, elem_of_nil in Hk1, Hk2.
    intuition congruence.
Qed.

(** C3 (as the code has it): a rebuild keeps the prior selection key of
    property [P] whenever there is one, whether or not it still names an
    option of [P]'s new row; only a property without a prior selection gets
    the default rule, the combined key when its first row conflicts, else
    the key of that row's first option. *)
Theorem buildRows_keeps_prior_selection (propertyList : list Property.t) (st : State) (P : Z) :
  (∀ key, selectedOptions st !! P = Some key →
          selectedOptions (buildRows propertyList st) !! P = Some key)
  ∧ (selectedOptions st !! P = None →
     selectedOptions (buildRows propertyList st) !! P =
     find (λ row, bool_decide (Property.id (MergeRow.property row) = P))
          (mergeRows (buildRows propertyList st))
     ≫= default_key).
Proof.
  split.
  - intros key Hkey. by rewrite buildRows_selection, Hkey.
  - intros Hnone. by rewrite buildRows_selection, Hnone.
Qed.

(** *** The commit builder, loop by loop *)

Lemma commit_step_entries (newInstance : Instance.t) (selected : gmap Z string)
    (commit : DbCommit.t) (row : MergeRow.t) :
  Instance.id newInstance = -1 →
  commit_step newInstance selected commit row =
  {| DbCommit.instances := DbCommit.instances commit;
     DbCommit.instanceValues :=
       DbCommit.instanceValues commit ++ option_list (instance_entry selected row);
     DbCommit.imageValues :=
       DbCommit.imageValues commit
       ++ option_list (image_entry (Instance.sha1 newInstance) selected row) |}.
Proof.
  intros Hid. unfold commit_step, instance_entry, image_entry, resolved_value, defined.
  destruct (selected_option selected row) as [option|].
  - destruct (nullish (MergeOption.value option)); simpl.
    + destruct commit, (Property.mode _); simpl; by rewrite !app_nil_r.
    + destruct (Property.mode _); simpl; rewrite ?app_nil_r, ?Hid; done.
  - destruct commit, (Property.mode _); simpl; by rewrite !app_nil_r.
Qed.

Lemma commit_fold (newInstance : Instance.t) (selected : gmap Z string)
    (rows : list MergeRow.t) (commit : DbCommit.t) :
  Instance.id newInstance = -1 →
  fold_left (commit_step newInstance selected) rows commit =
  {| DbCommit.instances := DbCommit.instances commit;
     DbCommit.instanceValues :=
       DbCommit.instanceValues commit ++ omap (instance_entry selected) rows;
     DbCommit.imageValues :=
       DbCommit.imageValues commit
       ++ omap (image_entry (Instance.sha1 newInstance) selected) rows |}.
Proof.
  intros Hid. revert commit.
  induction rows as [|row rows IH]; intros commit; cbn [fold_left].
  - destruct commit; simpl. by rewrite !app_nil_r.
  - rewrite IH, commit_step_entries by done. simpl.
    rewrite <- !app_assoc. f_equal.
    + f_equal. by destruct (instance_entry selected row).
    + f_equal. by destruct (image_entry _ selected row).
Qed.

Lemma buildCommit_eq (base : Instance.t) (rows : list MergeRow.t)
    (selected : gmap Z string) :
  buildCommit base rows selected =
  {| DbCommit.instances := [Instance.with_id base (-1)];
     DbCommit.instanceValues := omap (instance_entry selected) rows;
     DbCommit.imageValues := omap (image_entry (Instance.sha1 base) selected) rows |}.
Proof. unfold buildCommit. by rewrite commit_fold. Qed.

Lemma find_no_match {A : Type} (f : A → bool) (l : list A) :
  (∀ x, x ∈ l → f x = false) → find f l = None.
Proof.
  induction l as [|x l IH]; intros H; simpl; [done|].
  rewrite (H x) by left. apply IH. intros y Hy. apply H. by right.
Qed.

(** C4: the new member is the base member with identifier [-1], the other
    fields copied; each resolved row gives one entry, in the instance-scoped
    list under the new member's identifier when the property is per
    instance, in the entity-scoped list under the content hash when it is
    per entity; no property is listed in both. *)
Theorem buildCommit_routes_by_scope (base : Instance.t) (rows : list MergeRow.t)
    (selected : gmap Z string) :
  (∃ newMember,
     DbCommit.instances (buildCommit base rows selected) = [newMember] ∧
     Instance.id newMember = -1 ∧
     Instance.sha1 newMember = Instance.sha1 base ∧
     Instance.name newMember = Instance.name base ∧
     Instance.properties newMember = Instance.properties base)
  ∧ DbCommit.instanceValues (buildCommit base rows selected) =
      omap (instance_entry selected) rows
  ∧ DbCommit.imageValues (buildCommit base rows selected) =
      omap (image_entry (Instance.sha1 base) selected) rows
  ∧ (∀ row, instance_entry selected row = None ∨
            image_entry (Instance.sha1 base) selected row = None)
  ∧ (scopes_agree rows →
     ∀ e1 e2,
       e1 ∈ DbCommit.instanceValues (buildCommit base rows selected) →
       e2 ∈ DbCommit.imageValues (buildCommit base rows selected) →
       InstancePropertyValue.propertyId e1 ≠ ImagePropertyValue.propertyId e2).
Proof.
  rewrite buildCommit_eq. simpl. split_and!.
  - by exists (Instance.with_id base (-1)).
  - done.
  - done.
  - intros row. unfold instance_entry, image_entry.
    destruct (Property.mode _); auto.
  - intros Hagree e1 e2 (r1 & Hr1 & He1)%list_elem_of_omap (r2 & Hr2 & He2)%list_elem_of_omap Heq.
    unfold scopes_agree in Hagree. rewrite Forall_forall in Hagree.
    specialize (Hagree r1 Hr1). rewrite Forall_forall in Hagree.
    specialize (Hagree r2 Hr2).
    unfold instance_entry in He1. unfold image_entry in He2.
    destruct (Property.mode (MergeRow.property r1)) eqn:M1; [|done].
    destruct (Property.mode (MergeRow.property r2)) eqn:M2; [done|].
    destruct (resolved_value selected r1); [|done].
    destruct (resolved_value selected r2); [|done].
    simplify_eq/=. specialize (Hagree Heq). congruence.
Qed.

(** C8: a row whose selected key names none of its options, or whose
    selected option holds no value, leaves no entry in either list; the
    change set is the one of the remaining rows, and the routine hands it
    over whenever there is a base member. *)
Theorem buildCommit_omits_unresolvable (base : Instance.t)
    (rows1 rows2 : list MergeRow.t) (row : MergeRow.t) (selected : gmap Z string) :
  (∀ o, o ∈ MergeRow.options row →
        Some (MergeOption.key o) ≠ selected !! Property.id (MergeRow.property row))
  ∨ (∃ o, selected_option selected row = Some o ∧ nullish (MergeOption.value o) = true) →
  buildCommit base (rows1 ++ row :: rows2) selected =
    buildCommit base (rows1 ++ rows2) selected
  ∧ ∀ st, baseImage st = Some base → mergeRows st = rows1 ++ row :: rows2 →
          selectedOptions st = selected →
          (confirmMerge st).2 = Some (buildCommit base (rows1 ++ rows2) selected).
Proof.
  intros Hrow.
  assert (resolved_value selected row = None) as Hnone.
  { unfold resolved_value, defined. destruct Hrow as [Hno|(o & -> & ->)]; [|done].
    unfold selected_option. rewrite find_no_match; [done|].
    intros o Ho. apply bool_decide_eq_false_2. by apply Hno. }
  assert (buildCommit base (rows1 ++ row :: rows2) selected =
          buildCommit base (rows1 ++ rows2) selected) as Heq.
  { rewrite !buildCommit_eq, !omap_app. simpl.
    unfold instance_entry at 2, image_entry at 2. rewrite Hnone.
    by destruct (Property.mode _). }
  split; [done|].
  intros st Hbase Hrows Hsel. unfold confirmMerge.
  rewrite Hbase, Hrows, Hsel. simpl. by rewrite Heq.
Qed.

(** *** The combiner and the normalizer *)

Lemma no_defined_filter (values : list JsValue) :
  Forall (λ v, defined v = false) values ↔ filter (λ v, defined v) values = [].
Proof.
  induction values as [|v values IH]; [done|].
  rewrite Forall_cons. destruct (defined v) eqn:E.
  - rewrite filter_cons_True by (rewrite E; exact I). split; [by intros [? _]|done].
  - rewrite filter_cons_False by (rewrite E; exact id). rewrite IH. tauto.
Qed.

Lemma some_defined_filter (values : list JsValue) :
  Exists (λ v, defined v = true) values → filter (λ v, defined v) values ≠ [].
Proof.
  intros Hex Hnil. apply no_defined_filter in Hnil.
  apply Exists_exists in Hex as (v & Hv & Hdef).
  rewrite Forall_forall in Hnil. apply Hnil in Hv. congruence.
Qed.

Lemma merge_tags_fold (values : list JsValue) (merged : list JsScalar) :
  fold_left merge_tags values merged =
  fold_left (Set_add SameValueZero)
    (flat_map (λ v, match v with VArray items => items | VScalar x => [x] end) values)
    merged.
Proof.
  rewrite fold_left_flat_map. revert merged.
  induction values as [|v values IH]; intros merged; cbn [fold_left]; [done|].
  rewrite IH. by destruct v.
Qed.

Lemma filter_not_in_nil (l : list JsScalar) : filter (λ y, y ∉ []) l = l.
Proof.
  induction l as [|x l IH]; [done|].
  rewrite filter_cons_True, IH; [done|]. apply not_elem_of_nil.
Qed.

(** C6 (as the code has it): for a tag-typed property, when at least one
    value is defined and the referenced identifiers are tag identifiers,
    [combineValues] returns them as a sequence without duplicates, in
    first-seen order over the iteration of the values; when no value is
    defined it returns [undefined] instead of an empty sequence. *)
Theorem combineValues_tags (values : list JsValue) (S : Property.t) :
  isTag (Property.type S) = true →
  (Forall (λ v, defined v = false) values → combineValues values S = undefined)
  ∧ (Exists (λ v, defined v = true) values → identifiers (referenced_ids values) →
     combineValues values S = VArray (first_seen (referenced_ids values)) ∧
     NoDup (first_seen (referenced_ids values)) ∧
     ∀ x, x ∈ first_seen (referenced_ids values) ↔ x ∈ referenced_ids values).
Proof.
  intros Htag. unfold combineValues. split.
  - intros Hnone%no_defined_filter. by rewrite Hnone.
  - intros Hsome%some_defined_filter Hids.
    rewrite bool_decide_eq_false_2, Htag by done.
    split_and!; [|apply first_seen_NoDup|apply first_seen_elem].
    f_equal. rewrite merge_tags_fold. fold (referenced_ids values).
    rewrite fold_Set_add_first_seen; [|by apply identifiers_plain|constructor].
    apply filter_not_in_nil.
Qed.

(** C7 (as the code has it): for a property that is not tag-typed, when at
    least one value is defined, [combineValues] returns a string, the display
    strings of the defined values joined by [" -- "]; when no value is
    defined it returns [undefined].  The values "red" and "blue" of a
    property that is neither tag-typed nor a checkbox combine to
    "red -- blue". *)
Theorem combineValues_text (values : list JsValue) (S : Property.t) :
  isTag (Property.type S) = false →
  (Forall (λ v, defined v = false) values → combineValues values S = undefined)
  ∧ (Exists (λ v, defined v = true) values →
     combineValues values S =
     VStr (String.concat " -- "
             (map (λ v, formatValue v S) (filter (λ v, defined v) values))))
  ∧ (Property.type S ≠ PropertyType.checkbox →
     combineValues [VStr "red"; VStr "blue"] S = VStr "red -- blue").
Proof.
  intros Htag. unfold combineValues. split_and!.
  - intros Hnone%no_defined_filter. by rewrite Hnone.
  - intros Hsome%some_defined_filter.
    by rewrite bool_decide_eq_false_2, Htag by done.
  - intros Hbox. rewrite Htag. simpl. unfold formatValue. simpl.
    by rewrite bool_decide_eq_false_2 by done.
Qed.

(** C9 (as the code has it): the key of an absent value, [undefined] or
    [null], is ["__undefined__"]; the key of a defined value differs from it,
    except for the string ["__undefined__"] held by a color-typed property,
    whose key is the plain text of the value. *)
Theorem stringifyValue_absent_key (value : JsValue) (S : Property.t) :
  defined value = true →
  stringifyValue undefined S = stringifyValue null S
  ∧ (stringifyValue value S = stringifyValue undefined S ↔
     Property.type S = PropertyType.color ∧ value = VStr "__undefined__").
Proof.
  intros Hdef. split; [done|].
  unfold defined in Hdef. apply negb_true_iff in Hdef.
  change (stringifyValue undefined S) with "__undefined__".
  unfold stringifyValue. rewrite Hdef.
  destruct value as [x|items].
  - destruct x as [| |b|n|s|obj time]; try discriminate Hdef.
    + case_bool_decide as Hcolor; simpl; destruct b; split; try discriminate;
        intros [_ [=]].
    + case_bool_decide as Hcolor; simpl.
      * split; [by intros ?%Number_toString_not_sentinel|intros [_ [=]]].
      * split; [by intros ?%Number_toString_not_sentinel|intros [_ [=]]].
    + case_bool_decide as Hcolor; simpl.
      * split; [by intros ->|by intros [_ [= ->]]].
      * split; [discriminate|by intros [? _]].
    + split; [by intros ?%Date_toISOString_not_sentinel|intros [_ [=]]].
  - split; [discriminate|intros [_ [=]]].
Qed.

(** *** Null entries and missing entries *)

Lemma forget_null_same (P : Z) (m : Instance.t) : same_but_null m (forget_null P m).
Proof.
  unfold same_but_null, forget_null.
  destruct (Instance.properties m !! P) as [[[]|]|] eqn:E; try by auto.
  split_and!; [done..|]. intros Q. unfold Instance.get. simpl.
  destruct (decide (P = Q)) as [<-|Hne].
  - right. by rewrite E, lookup_delete_eq.
  - left. by rewrite lookup_delete_ne.
Qed.

Lemma same_but_null_refl (m : Instance.t) : same_but_null m m.
Proof. unfold same_but_null. auto. Qed.

Lemma same_but_null_defined (m m' : Instance.t) (P : Z) :
  same_but_null m m' →
  defined (Instance.get m P) = defined (Instance.get m' P) ∧
  (defined (Instance.get m P) = true → Instance.get m P = Instance.get m' P).
Proof.
  intros (_ & _ & H). unfold defined.
  destruct (H P) as [->|[-> ->]]; [done|]. split; [done|discriminate].
Qed.

Lemma same_but_null_values (members members' : list Instance.t) (S : Property.t) :
  Forall2 same_but_null members members' →
  filter (λ v, defined v) (member_values members S) =
  filter (λ v, defined v) (member_values members' S).
Proof.
  unfold member_values.
  induction 1 as [|m m' members members' Hm _ IH]; [done|]. cbn [map].
  destruct (same_but_null_defined m m' (Property.id S) Hm) as [Hd Heq].
  destruct (defined (Instance.get m (Property.id S))) eqn:E.
  - rewrite !filter_cons_True by (rewrite <- ?Hd, ?E; exact I).
    by rewrite IH, Heq.
  - rewrite !filter_cons_False by (rewrite <- ?Hd, ?E; exact id). done.
Qed.

Lemma same_but_null_options (members members' : list Instance.t) (S : Property.t) :
  Forall2 same_but_null members members' →
  map (member_option S) (filter (λ m, defined (Instance.get m (Property.id S))) members) =
  map (member_option S) (filter (λ m, defined (Instance.get m (Property.id S))) members').
Proof.
  induction 1 as [|m m' members members' Hm _ IH]; [done|].
  destruct (same_but_null_defined m m' (Property.id S) Hm) as [Hd Heq].
  destruct (defined (Instance.get m (Property.id S))) eqn:E.
  - rewrite !filter_cons_True by (rewrite <- ?Hd, ?E; exact I).
    cbn [map]. rewrite IH. f_equal.
    unfold member_option. destruct Hm as (-> & _ & _). by rewrite Heq.
  - rewrite !filter_cons_False by (rewrite <- ?Hd, ?E; exact id). done.
Qed.

Lemma same_but_null_has_value (members members' : list Instance.t) (S : Property.t) :
  Forall2 same_but_null members members' →
  has_defined_value members S ↔ has_defined_value members' S.
Proof.
  unfold has_defined_value.
  induction 1 as [|m m' members members' Hm _ IH]; [done|].
  destruct (same_but_null_defined m m' (Property.id S) Hm) as [Hd _].
  by rewrite !Exists_cons, IH, Hd.
Qed.

Lemma same_but_null_row (members members' : list Instance.t) (S : Property.t) :
  Forall2 same_but_null members members' →
  row_of members S = row_of members' S.
Proof.
  intros H. unfold row_of, canonical_keys, combineValues.
  by rewrite (same_but_null_values members members'),
    (same_but_null_options members members').
Qed.

Lemma images_set_groupData (members : list Instance.t) (st : State) :
  images (set_groupData (Some members) st) = members.
Proof. done. Qed.

Lemma same_but_null_rows (propertyList : list Property.t) (st : State)
    (members members' : list Instance.t) :
  Forall2 same_but_null members members' →
  mergeRows (buildRows propertyList (set_groupData (Some members) st)) =
  mergeRows (buildRows propertyList (set_groupData (Some members') st)).
Proof.
  intros H. rewrite !buildRows_rows, !images_set_groupData.
  rewrite (list_filter_iff _
             (λ S, user_resolvable S ∧ has_defined_value members' S)).
  - apply map_ext. intros S. by apply same_but_null_row.
  - intros S. by rewrite (same_but_null_has_value members members').
Qed.

Lemma same_but_null_selection (propertyList : list Property.t) (st : State)
    (members members' : list Instance.t) :
  Forall2 same_but_null members members' →
  selectedOptions (buildRows propertyList (set_groupData (Some members) st)) =
  selectedOptions (buildRows propertyList (set_groupData (Some members') st)).
Proof.
  intros H. apply map_eq. intros P.
  by rewrite !buildRows_selection, (same_but_null_rows _ _ members members').
Qed.

Lemma buildRows_frame (propertyList : list Property.t) (st : State) :
  groupData (buildRows propertyList st) = groupData st ∧
  selectedImageId (buildRows propertyList st) = selectedImageId st ∧
  merging (buildRows propertyList st) = merging st.
Proof.
  unfold buildRows. case_bool_decide; [done|].
  by destruct (fold_left _ _ _).
Qed.

Lemma baseImage_buildRows (propertyList : list Property.t) (st : State) :
  baseImage (buildRows propertyList st) = baseImage st.
Proof.
  unfold baseImage, images.
  by destruct (buildRows_frame propertyList st) as (-> & -> & _).
Qed.

Lemma forget_null_id (P : Z) (m : Instance.t) :
  Instance.id (forget_null P m) = Instance.id m.
Proof. by destruct (forget_null_same P m) as (<- & _). Qed.

Lemma baseImage_forget_null (P : Z) (l1 l2 : list Instance.t) (m : Instance.t) (st : State) :
  let st1 := set_groupData (Some (l1 ++ m :: l2)) st in
  let st2 := set_groupData (Some (l1 ++ forget_null P m :: l2)) st in
  baseImage st2 = baseImage st1 ∨
  (baseImage st1 = Some m ∧ baseImage st2 = Some (forget_null P m)).
Proof.
  intros st1 st2. subst st1 st2. unfold baseImage.
  rewrite !images_set_groupData. cbn [selectedImageId set_groupData].
  destruct l1 as [|x l1].
  - simpl. rewrite forget_null_id. case_bool_decide; auto.
    destruct (find _ l2); auto.
  - assert (find (λ img, bool_decide (Some (Instance.id img) = selectedImageId st))
                 ((x :: l1) ++ forget_null P m :: l2) =
            find (λ img, bool_decide (Some (Instance.id img) = selectedImageId st))
                 ((x :: l1) ++ m :: l2) ∨
            (find (λ img, bool_decide (Some (Instance.id img) = selectedImageId st))
                  ((x :: l1) ++ m :: l2) = Some m ∧
             find (λ img, bool_decide (Some (Instance.id img) = selectedImageId st))
                  ((x :: l1) ++ forget_null P m :: l2) = Some (forget_null P m)))
      as [->|[-> ->]]; auto.
    generalize (x :: l1). intros l. induction l as [|y l IH]; simpl.
    + rewrite forget_null_id. case_bool_decide; auto.
    + case_bool_decide; auto.
Qed.

Lemma forget_null_with_id (P : Z) (m : Instance.t) (newId : Z) :
  Instance.with_id (forget_null P m) newId = forget_null P (Instance.with_id m newId).
Proof.
  unfold forget_null, Instance.with_id. simpl.
  by destruct (Instance.properties m !! P) as [[[]|]|].
Qed.

(** C10 (as the code has it): turning a member's [null] entry into a missing
    entry leaves the rows, the selection and the two value lists of the
    change set unchanged; the new member of the change set is a copy of the
    base member, so it changes with it when the base member is the one whose
    entry was replaced. *)
Theorem null_entry_as_missing (propertyList : list Property.t) (st : State)
    (l1 l2 : list Instance.t) (m : Instance.t) (P : Z) :
  let st1 := buildRows propertyList (set_groupData (Some (l1 ++ m :: l2)) st) in
  let st2 :=
    buildRows propertyList (set_groupData (Some (l1 ++ forget_null P m :: l2)) st) in
  mergeRows st2 = mergeRows st1
  ∧ selectedOptions st2 = selectedOptions st1
  ∧ option_Forall2
      (λ c1 c2,
         DbCommit.instanceValues c2 = DbCommit.instanceValues c1 ∧
         DbCommit.imageValues c2 = DbCommit.imageValues c1 ∧
         (DbCommit.instances c2 = DbCommit.instances c1 ∨
          DbCommit.instances c2 = forget_null P <$> DbCommit.instances c1))
      (confirmMerge st1).2 (confirmMerge st2).2.
Proof.
  intros st1 st2.
  assert (Forall2 same_but_null (l1 ++ m :: l2) (l1 ++ forget_null P m :: l2)) as Hsame.
  { apply Forall2_app.
    - apply Forall_Forall2_diag, Forall_forall. intros; apply same_but_null_refl.
    - constructor; [apply forget_null_same|].
      apply Forall_Forall2_diag, Forall_forall. intros; apply same_but_null_refl. }
  assert (mergeRows st2 = mergeRows st1) as Hrows.
  { symmetry. by apply same_but_null_rows. }
  assert (selectedOptions st2 = selectedOptions st1) as Hsel.
  { symmetry. by apply same_but_null_selection. }
  split_and!; [done..|].
  unfold confirmMerge. subst st1 st2.
  rewrite !baseImage_buildRows.
  destruct (baseImage_forget_null P l1 l2 m st) as [->|[-> ->]].
  - destruct (baseImage _) as [base|]; simpl; constructor.
    rewrite Hrows, Hsel. auto.
  - simpl. constructor. rewrite Hrows, Hsel, !buildCommit_eq. simpl.
    destruct (forget_null_same P m) as (_ & <- & _).
    split_and!; [done..|]. right. by rewrite forget_null_with_id.
Qed.

(** *** The submit guard *)

Lemma onShow_merging (propertyList : list Property.t)
    (payload : option (list Instance.t)) (st : State) :
  merging (onShow propertyList payload st) = merging st.
Proof.
  unfold onShow. by destruct (buildRows_frame propertyList
    (resetState (set_selectedImageId
       (Instance.id <$> head (images (set_groupData (Some (default [] payload)) st)))
       (set_groupData (Some (default [] payload)) st)))) as (_ & _ & ->).
Qed.

Lemma step_one_in_flight (propertyList : list Property.t) (w : World) (e : Event) :
  one_in_flight w → one_in_flight (step propertyList w e).
Proof.
  unfold one_in_flight.
  destruct w as [st pend], e as [payload| |id|P key| |ok]; simpl.
  - by rewrite onShow_merging.
  - done.
  - done.
  - done.
  - unfold confirm_disabled.
    destruct (merging st) eqn:Hm; simpl; rewrite ?Hm; [done|].
    case_bool_decide as Hbase; simpl; rewrite ?Hm; [done|].
    unfold confirmMerge. destruct (baseImage st) as [base|]; [|done]. simpl.
    destruct pend as [|c [|c' pend]]; simpl; [done|discriminate|done].
  - destruct pend as [|c [|c' pend]]; simpl; [done|done|done].
Qed.

Lemma run_one_in_flight (propertyList : list Property.t) (events : list Event) (w : World) :
  one_in_flight w → one_in_flight (run propertyList w events).
Proof.
  unfold run. revert w.
  induction events as [|e events IH]; intros w Hw; simpl; [done|].
  by apply IH, step_one_in_flight.
Qed.

(** C5 (as the code has it): [confirmMerge] does not look at the [merging]
    guard; it sets the guard when it calls the persistence collaborator and
    clears it when the call settles.  Re-invocation is prevented outside the
    routine: the confirm control is disabled while the guard is set, so along
    any sequence of events of the modal at most one call is in flight. *)
Theorem submit_guarded_by_control (propertyList : list Property.t) :
  (∀ st guard, (confirmMerge (set_merging guard st)).2 = (confirmMerge st).2)
  ∧ (∀ st commit, (confirmMerge st).2 = Some commit →
                  merging (confirmMerge st).1 = true)
  ∧ (∀ ok st, merging (confirmMerge_settled ok st) = false)
  ∧ (∀ events,
       (length (pending (run propertyList (mkWorld initial []) events)) ≤ 1)%nat).
Proof.
  split_and!.
  - intros st guard. unfold confirmMerge.
    change (baseImage (set_merging guard st)) with (baseImage st).
    by destruct (baseImage st).
  - intros st commit. unfold confirmMerge. by destruct (baseImage st).
  - done.
  - intros events.
    pose proof (run_one_in_flight propertyList events (mkWorld initial []) I) as H.
    unfold one_in_flight in H.
    destruct (pending _) as [|c [|c' pend]]; simpl; [lia|lia|done].
Qed.


(** ** Part VI: further properties of the component *)

(** *** The shape of a built row *)

Lemma Number_toString_not_combined (n : Z) : Number_toString n ≠ "combined".
Proof.
  unfold Number_toString. intros H.
  destruct (to_int_proper n) as [H1 H2].
  apply (f_equal NilZero.int_of_string) in H.
  rewrite NilZero.isi in H by done. discriminate.
Qed.

Lemma combineValues_defined (values : list JsValue) (S : Property.t) :
  Exists (λ v, defined v = true) values → defined (combineValues values S) = true.
Proof.
  intros Hsome%some_defined_filter. unfold combineValues.
  rewrite bool_decide_eq_false_2 by done.
  by destruct (isTag _).
Qed.

Lemma has_defined_member_values (members : list Instance.t) (S : Property.t) :
  has_defined_value members S ↔ Exists (λ v, defined v = true) (member_values members S).
Proof.
  unfold has_defined_value, member_values. rewrite !Exists_exists. split.
  - intros (m & Hm & Hd). exists (Instance.get m (Property.id S)).
    split; [|done]. apply list_elem_of_fmap. by exists m.
  - intros (v & (m & -> & Hm)%list_elem_of_fmap & Hd). by exists m.
Qed.

Lemma member_option_in (members : list Instance.t) (S : Property.t) (o : MergeOption.t) :
  o ∈ map (member_option S)
        (filter (λ m, defined (Instance.get m (Property.id S))) members) ↔
  ∃ m, m ∈ members ∧ defined (Instance.get m (Property.id S)) = true ∧
       o = member_option S m.
Proof.
  rewrite list_elem_of_fmap. split.
  - intros (m & -> & [Hd Hm]%list_elem_of_filter). exists m.
    split_and!; [done| |done]. by apply Is_true_true.
  - intros (m & Hm & Hd & ->). exists m. split; [done|].
    apply list_elem_of_filter. split; [by apply Is_true_true|done].
Qed.

Lemma member_options_have_source (S : Property.t) (l : list Instance.t) :
  filter (λ o, MergeOption.sourceImageId o = None) (map (member_option S) l) = [].
Proof.
  induction l as [|m l IH]; [done|]. cbn [map].
  rewrite filter_cons_False; [exact IH|]. discriminate.
Qed.

(** X1: the options of a built row are one option per member holding a
    value, in member order, followed by the combined option exactly when the
    row conflicts; the list is never empty, every option holds a defined
    value, and an option has the key "combined" exactly when it has no
    source member. *)
Theorem built_row_shape (propertyList : list Property.t) (st : State) (row : MergeRow.t) :
  row ∈ mergeRows (buildRows propertyList st) →
  MergeRow.options row =
    map (member_option (MergeRow.property row))
        (filter (λ m, defined (Instance.get m (Property.id (MergeRow.property row))))
                (images st))
    ++ (if MergeRow.conflict row
        then [{| MergeOption.key := "combined";
                 MergeOption.value :=
                   combineValues (member_values (images st) (MergeRow.property row))
                                 (MergeRow.property row);
                 MergeOption.sourceImageId := None |}]
        else [])
  ∧ MergeRow.options row ≠ []
  ∧ (∀ o, o ∈ MergeRow.options row → defined (MergeOption.value o) = true)
  ∧ (∀ o, o ∈ MergeRow.options row →
          MergeOption.key o = "combined" ↔ MergeOption.sourceImageId o = None)
  ∧ length (filter (λ o, MergeOption.sourceImageId o = None) (MergeRow.options row))
    = (if MergeRow.conflict row then 1 else 0)%nat.
Proof.
  intros Hrow. apply row_in_buildRows in Hrow as (Hrow & _ & _ & Hhas).
  set (S := MergeRow.property row) in *.
  assert (MergeRow.options row =
    map (member_option S)
        (filter (λ m, defined (Instance.get m (Property.id S))) (images st))
    ++ (if MergeRow.conflict row
        then [{| MergeOption.key := "combined";
                 MergeOption.value := combineValues (member_values (images st) S) S;
                 MergeOption.sourceImageId := None |}]
        else [])) as Hopts.
  { by rewrite Hrow at 1 2. }
  split_and!.
  - done.
  - rewrite Hopts. destruct (member_options_nonempty (images st) S Hhas) as (m & rest & ->).
    done.
  - intros o. rewrite Hopts, elem_of_app, member_option_in.
    intros [(m & _ & Hd & ->)|Ho]; [done|].
    destruct (MergeRow.conflict row); [|by apply elem_of_nil in Ho].
    apply list_elem_of_singleton in Ho as ->. simpl.
    by apply combineValues_defined, has_defined_member_values.
  - intros o. rewrite Hopts, elem_of_app, member_option_in.
    intros [(m & _ & _ & ->)|Ho].
    + simpl. split; [|done]. by intros ?%Number_toString_not_combined.
    + destruct (MergeRow.conflict row); [|by apply elem_of_nil in Ho].
      by apply list_elem_of_singleton in Ho as ->.
  - rewrite Hopts, filter_app, length_app.
    rewrite member_options_have_source.
    by destruct (MergeRow.conflict row).
Qed.

(** *** Keys, picks and the default selection *)

Lemma sublist_fmap_filter {A B : Type} (f : A → B) (P : A → Prop)
    `{∀ x, Decision (P x)} (l : list A) :
  f <$> filter P l `sublist_of` f <$> l.
Proof. apply fmap_sublist, sublist_filter. Qed.

Lemma member_keys (S : Property.t) (l : list Instance.t) :
  map MergeOption.key (map (member_option S) l) =
  map Number_toString (map Instance.id l).
Proof. by rewrite !map_map. Qed.

Lemma find_key_unique (k : string) (l : list MergeOption.t) (o : MergeOption.t) :
  NoDup (map MergeOption.key l) → o ∈ l → MergeOption.key o = k →
  find (λ o, bool_decide (Some (MergeOption.key o) = Some k)) l = Some o.
Proof.
  induction l as [|x l IH]; intros Hnd Ho Hk; [by apply elem_of_nil in Ho|].
  cbn [map] in Hnd. apply NoDup_cons in Hnd as [Hx Hnd]. simpl.
  apply elem_of_cons in Ho as [->|Ho].
  - by rewrite bool_decide_eq_true_2 by congruence.
  - rewrite bool_decide_eq_false_2; [by apply IH|].
    intros [= Hxk]. apply Hx. rewrite Hxk, <- Hk.
    apply list_elem_of_fmap. by exists o.
Qed.

Lemma find_key_last (k : string) (l : list MergeOption.t) (o : MergeOption.t) :
  (∀ x, x ∈ l → MergeOption.key x ≠ k) → MergeOption.key o = k →
  find (λ o, bool_decide (Some (MergeOption.key o) = Some k)) (l ++ [o]) = Some o.
Proof.
  intros Hl Hk. induction l as [|x l IH]; simpl.
  - by rewrite bool_decide_eq_true_2 by congruence.
  - rewrite bool_decide_eq_false_2.
    + apply IH. intros y Hy. apply Hl. by right.
    + intros [= Hx]. by apply (Hl x); [left|].
Qed.

Lemma built_option_keys (propertyList : list Property.t) (st : State) (row : MergeRow.t) :
  NoDup (map Instance.id (images st)) →
  row ∈ mergeRows (buildRows propertyList st) →
  NoDup (map MergeOption.key (MergeRow.options row)).
Proof.
  intros Hids Hrow. apply row_in_buildRows in Hrow as (Hrow & _).
  rewrite Hrow. unfold row_of. cbn [MergeRow.options].
  rewrite map_app, member_keys.
  assert (NoDup (map Number_toString
            (map Instance.id
               (filter (λ m, defined (Instance.get m (Property.id (MergeRow.property row))))
                       (images st))))) as Hnd.
  { assert (Inj (=) (=) Number_toString) as Hinj.
    { intros a b. apply Number_toString_inj. }
    apply (NoDup_fmap_2 Number_toString).
    apply (sublist_NoDup _ _ Hids), sublist_fmap_filter. }
  destruct (1 <? _)%nat; [|by rewrite app_nil_r].
  apply NoDup_app. split_and!; [done| |apply NoDup_singleton].
  intros k (n & -> & _)%list_elem_of_fmap Hk%list_elem_of_singleton.
  by apply Number_toString_not_combined in Hk.
Qed.

(** X2: when the members have distinct identifiers, the options of a built
    row have distinct keys, so a selection key names at most one option. *)
Theorem option_keys_distinct (propertyList : list Property.t) (st : State)
    (row : MergeRow.t) :
  NoDup (map Instance.id (images st)) →
  row ∈ mergeRows (buildRows propertyList st) →
  NoDup (map MergeOption.key (MergeRow.options row))
  ∧ ∀ o1 o2, o1 ∈ MergeRow.options row → o2 ∈ MergeRow.options row →
             MergeOption.key o1 = MergeOption.key o2 → o1 = o2.
Proof.
  intros Hids Hrow.
  pose proof (built_option_keys propertyList st row Hids Hrow) as Hnd.
  split; [done|]. intros o1 o2 H1 H2 Hk.
  pose proof (find_key_unique (MergeOption.key o1) _ o1 Hnd H1 eq_refl) as F1.
  pose proof (find_key_unique (MergeOption.key o1) _ o2 Hnd H2 (eq_sym Hk)) as F2.
  congruence.
Qed.

Lemma pick_combined (members : list Instance.t) (S : Property.t)
    (selected : gmap Z string) :
  MergeRow.conflict (row_of members S) = true →
  has_defined_value members S →
  selected !! Property.id S = Some "combined" →
  resolved_value selected (row_of members S) =
  Some (combineValues (member_values members S) S).
Proof.
  intros Hc Hhas Hsel. unfold resolved_value, selected_option.
  change (MergeRow.property (row_of members S)) with S. rewrite Hsel.
  unfold row_of in *. cbn [MergeRow.options MergeRow.conflict] in *. rewrite Hc.
  rewrite find_key_last; [|by intros x (m & _ & _ & ->)%member_option_in
                                  ?%Number_toString_not_combined|done].
  cbn [MergeOption.value].
  by rewrite combineValues_defined by (by apply has_defined_member_values).
Qed.

(** X3: with distinct member identifiers, selecting the key of a member that
    holds a value resolves the row to that member's value; selecting
    "combined" on a conflicting row resolves it to the combined value. *)
Theorem picked_option_resolves (propertyList : list Property.t) (st : State)
    (row : MergeRow.t) (selected : gmap Z string) :
  row ∈ mergeRows (buildRows propertyList st) →
  (∀ m, NoDup (map Instance.id (images st)) →
        m ∈ images st →
        defined (Instance.get m (Property.id (MergeRow.property row))) = true →
        selected !! Property.id (MergeRow.property row)
          = Some (Number_toString (Instance.id m)) →
        resolved_value selected row
          = Some (Instance.get m (Property.id (MergeRow.property row))))
  ∧ (MergeRow.conflict row = true →
     selected !! Property.id (MergeRow.property row) = Some "combined" →
     resolved_value selected row
       = Some (combineValues (member_values (images st) (MergeRow.property row))
                             (MergeRow.property row))).
Proof.
  intros Hrow. split.
  - intros m Hids Hm Hd Hsel.
    pose proof (built_option_keys propertyList st row Hids Hrow) as Hnd.
    apply row_in_buildRows in Hrow as (Hrow & _).
    unfold resolved_value, selected_option. rewrite Hsel.
    rewrite (find_key_unique _ _ (member_option (MergeRow.property row) m));
      [|done| |done].
    + cbn [MergeOption.value member_option]. by rewrite Hd.
    + rewrite Hrow. unfold row_of. cbn [MergeRow.options].
      apply elem_of_app. left. apply member_option_in. by exists m.
  - intros Hc Hsel. apply row_in_buildRows in Hrow as (Hrow & _ & _ & Hhas).
    rewrite Hrow. rewrite Hrow in Hc. by apply pick_combined.
Qed.

Lemma rows_properties (propertyList : list Property.t) (st : State) :
  map MergeRow.property (mergeRows (buildRows propertyList st)) =
  filter (λ S, user_resolvable S ∧ has_defined_value (images st) S) propertyList.
Proof. rewrite buildRows_rows, map_map. apply map_id. Qed.

Lemma rows_ids_NoDup (propertyList : list Property.t) (st : State) :
  NoDup (map Property.id propertyList) →
  NoDup (map Property.id (map MergeRow.property (mergeRows (buildRows propertyList st)))).
Proof.
  intros Hnd. rewrite rows_properties.
  apply (sublist_NoDup _ _ Hnd), sublist_fmap_filter.
Qed.

Lemma find_row_unique (rows : list MergeRow.t) (row : MergeRow.t) :
  NoDup (map Property.id (map MergeRow.property rows)) → row ∈ rows →
  find (λ r, bool_decide (Property.id (MergeRow.property r)
                          = Property.id (MergeRow.property row))) rows = Some row.
Proof.
  induction rows as [|x rows IH]; intros Hnd Hrow; [by apply elem_of_nil in Hrow|].
  cbn [map] in Hnd. apply NoDup_cons in Hnd as [Hx Hnd]. simpl.
  apply elem_of_cons in Hrow as [->|Hrow].
  - by rewrite bool_decide_eq_true_2.
  - rewrite bool_decide_eq_false_2; [by apply IH|].
    intros Heq. apply Hx. rewrite Heq.
    apply list_elem_of_fmap. exists (MergeRow.property row). split; [done|].
    apply list_elem_of_fmap. by exists row.
Qed.

Lemma default_key_resolves (members : list Instance.t) (S : Property.t)
    (selected : gmap Z string) :
  has_defined_value members S →
  selected !! Property.id S = default_key (row_of members S) →
  resolved_value selected (row_of members S) =
    MergeOption.value <$>
      (if MergeRow.conflict (row_of members S)
       then last (MergeRow.options (row_of members S))
       else head (MergeRow.options (row_of members S)))
  ∧ is_Some (resolved_value selected (row_of members S)).
Proof.
  intros Hhas Hsel. unfold default_key in Hsel.
  destruct (MergeRow.conflict (row_of members S)) eqn:Hc.
  - rewrite pick_combined by done.
    unfold row_of in *. cbn [MergeRow.options MergeRow.conflict] in *.
    rewrite Hc, last_snoc. by eauto.
  - unfold resolved_value, selected_option.
    change (MergeRow.property (row_of members S)) with S. rewrite Hsel.
    unfold row_of in *. cbn [MergeRow.options MergeRow.conflict] in *.
    rewrite Hc, app_nil_r.
    destruct (member_options_nonempty members S Hhas) as (m & rest & Hm).
    assert (m ∈ filter (λ m, defined (Instance.get m (Property.id S))) members) as Hin.
    { rewrite Hm. by left. }
    apply list_elem_of_filter in Hin as [Hd%Is_true_true _].
    rewrite Hm. simpl. rewrite bool_decide_eq_true_2 by done. simpl.
    rewrite Hd. by eauto.
Qed.

Lemma built_row_default_key (propertyList : list Property.t) (st : State)
    (row : MergeRow.t) :
  row ∈ mergeRows (buildRows propertyList st) → is_Some (default_key row).
Proof.
  intros Hrow. apply row_in_buildRows in Hrow as (-> & _ & _ & Hhas).
  destruct (buildRows_step_row (images st) [] ∅ (MergeRow.property row) Hhas)
    as (key & -> & _). by eauto.
Qed.

Lemma fresh_selection (propertyList : list Property.t) (st : State) (row : MergeRow.t) :
  NoDup (map Property.id propertyList) →
  row ∈ mergeRows (buildRows propertyList st) →
  selectedOptions st !! Property.id (MergeRow.property row) = None →
  selectedOptions (buildRows propertyList st) !! Property.id (MergeRow.property row)
  = default_key row.
Proof.
  intros Hnd Hrow Hnone.
  rewrite buildRows_selection, Hnone, find_row_unique; [done| |done].
  by apply rows_ids_NoDup.
Qed.

Lemma fresh_selection_resolves (propertyList : list Property.t) (st : State)
    (row : MergeRow.t) :
  NoDup (map Property.id propertyList) →
  row ∈ mergeRows (buildRows propertyList st) →
  selectedOptions st !! Property.id (MergeRow.property row) = None →
  resolved_value (selectedOptions (buildRows propertyList st)) row =
    MergeOption.value <$>
      (if MergeRow.conflict row then last (MergeRow.options row)
       else head (MergeRow.options row))
  ∧ is_Some (resolved_value (selectedOptions (buildRows propertyList st)) row).
Proof.
  intros Hnd Hrow Hnone.
  pose proof (fresh_selection propertyList st row Hnd Hrow Hnone) as Hsel.
  apply row_in_buildRows in Hrow as (Hrow & _ & _ & Hhas).
  rewrite Hrow in Hsel |- *.
  change (MergeRow.property (row_of (images st) (MergeRow.property row)))
    with (MergeRow.property row) in Hsel.
  by apply default_key_resolves.
Qed.

(** X4: when the schema list has distinct identifiers and a property has no
    prior selection, the rebuild selects the default key, and that key always
    resolves: to the combined option on a conflicting row, else to the first
    option of the row. *)
Theorem default_selection_resolves (propertyList : list Property.t) (st : State)
    (row : MergeRow.t) :
  NoDup (map Property.id propertyList) →
  row ∈ mergeRows (buildRows propertyList st) →
  selectedOptions st !! Property.id (MergeRow.property row) = None →
  selectedOptions (buildRows propertyList st) !! Property.id (MergeRow.property row)
    = default_key row
  ∧ resolved_value (selectedOptions (buildRows propertyList st)) row =
      MergeOption.value <$>
        (if MergeRow.conflict row then last (MergeRow.options row)
         else head (MergeRow.options row))
  ∧ is_Some (resolved_value (selectedOptions (buildRows propertyList st)) row).
Proof.
  intros Hnd Hrow Hnone. split.
  - by apply fresh_selection.
  - by apply fresh_selection_resolves.
Qed.

Lemma entries_count (contentHash : string) (selected : gmap Z string)
    (rows : list MergeRow.t) :
  Forall (λ row, is_Some (resolved_value selected row)) rows →
  (length (omap (instance_entry selected) rows)
   + length (omap (image_entry contentHash selected) rows) = length rows)%nat.
Proof.
  induction 1 as [|row rows [v Hv] _ IH]; [done|]. cbn [omap list_omap].
  unfold instance_entry at 1, image_entry at 1. rewrite Hv.
  destruct (Property.mode _); simpl; lia.
Qed.

Lemma onShow_state (propertyList : list Property.t)
    (payload : option (list Instance.t)) (st : State) :
  images (onShow propertyList payload st) = default [] payload ∧
  selectedImageId (onShow propertyList payload st)
    = Instance.id <$> head (default [] payload) ∧
  mergeRows (onShow propertyList payload st)
    = mergeRows (buildRows propertyList (opened (default [] payload))) ∧
  selectedOptions (onShow propertyList payload st)
    = selectedOptions (buildRows propertyList (opened (default [] payload))).
Proof.
  unfold onShow, opened, buildRows, images, resetState. simpl.
  case_bool_decide; [done|]. by destruct (fold_left _ _ _).
Qed.

(** X5: confirming right after the modal opened on a non-empty cluster, for
    a schema list with distinct identifiers, bases the merge on the first
    member and sends exactly one value per row. *)
Theorem open_then_confirm (propertyList : list Property.t) (m : Instance.t)
    (members : list Instance.t) (st : State) :
  NoDup (map Property.id propertyList) →
  ∃ commit,
    (confirmMerge (onShow propertyList (Some (m :: members)) st)).2 = Some commit
    ∧ DbCommit.instances commit = [Instance.with_id m (-1)]
    ∧ (length (DbCommit.instanceValues commit) + length (DbCommit.imageValues commit)
       = length (mergeRows (onShow propertyList (Some (m :: members)) st)))%nat.
Proof.
  intros Hnd.
  destruct (onShow_state propertyList (Some (m :: members)) st)
    as (Himgs & Hpick & Hrows & Hsel).
  unfold confirmMerge, baseImage. rewrite Himgs, Hpick. simpl.
  rewrite bool_decide_eq_true_2 by done. simpl.
  eexists. split; [done|]. rewrite buildCommit_eq. simpl.
  split; [done|]. apply entries_count.
  rewrite Hrows, Hsel. apply Forall_forall. intros row Hrow.
  by apply fresh_selection_resolves.
Qed.

(** *** Rebuilding and reopening *)

Lemma buildRows_state (propertyList : list Property.t) (st : State) :
  buildRows propertyList st =
  set_rows (mergeRows (buildRows propertyList st))
    (set_selectedOptions (selectedOptions (buildRows propertyList st)) st).
Proof.
  unfold buildRows. case_bool_decide.
  - by destruct st.
  - by destruct (fold_left _ _ _).
Qed.

Lemma images_buildRows (propertyList : list Property.t) (st : State) :
  images (buildRows propertyList st) = images st.
Proof. unfold images. by destruct (buildRows_frame propertyList st) as (-> & _). Qed.

(** X6: rebuilding the rows a second time changes nothing: [buildRows] is
    idempotent on the whole state. *)
Theorem buildRows_idempotent (propertyList : list Property.t) (st : State) :
  buildRows propertyList (buildRows propertyList st) = buildRows propertyList st.
Proof.
  assert (mergeRows (buildRows propertyList (buildRows propertyList st))
          = mergeRows (buildRows propertyList st)) as Hrows.
  { by rewrite !buildRows_rows, images_buildRows. }
  assert (selectedOptions (buildRows propertyList (buildRows propertyList st))
          = selectedOptions (buildRows propertyList st)) as Hsel.
  { apply map_eq. intros P.
    rewrite (buildRows_selection propertyList (buildRows propertyList st)), Hrows.
    destruct (selectedOptions (buildRows propertyList st) !! P) as [key|] eqn:E; [done|].
    rewrite buildRows_selection in E.
    by destruct (selectedOptions st !! P). }
  rewrite (buildRows_state propertyList (buildRows propertyList st)), Hrows, Hsel.
  by destruct (buildRows propertyList st).
Qed.

(** X7: opening the modal starts from scratch: the state after [onShow]
    depends on the payload and the schema list only, apart from the
    [merging] flag, which is carried over. *)
Theorem onShow_forgets (propertyList : list Property.t)
    (payload : option (list Instance.t)) (st : State) :
  onShow propertyList payload st =
  set_merging (merging st) (buildRows propertyList (opened (default [] payload))).
Proof.
  unfold onShow, opened, buildRows, images, resetState. simpl.
  case_bool_decide; [done|]. by destruct (fold_left _ _ _).
Qed.

(** *** The base member and the submit *)

Lemma baseImage_None (st : State) : baseImage st = None ↔ images st = [].
Proof.
  unfold baseImage. destruct (find _ _) eqn:E; [|by destruct (images st)].
  split; [done|]. intros Hnil. by rewrite Hnil in E.
Qed.

Lemma find_first {A : Type} (f : A → bool) (l : list A) (x : A) :
  find f l = Some x →
  ∃ l1 l2, l = l1 ++ x :: l2 ∧ f x = true ∧ ∀ y, y ∈ l1 → f y = false.
Proof.
  induction l as [|a l IH]; [done|]. simpl.
  destruct (f a) eqn:E.
  - intros [= ->]. exists [], l. split_and!; [done..|].
    by intros y ?%elem_of_nil.
  - intros (l1 & l2 & -> & Hx & Hl1)%IH. exists (a :: l1), l2.
    split_and!; [done..|]. by intros y [->|?]%elem_of_cons; [|apply Hl1].
Qed.

(** X8: the base member is always a member of the cluster: the first member
    whose identifier is the picked one, or else, when no member has the
    picked identifier, the first member. *)
Theorem baseImage_choice (st : State) (base : Instance.t) :
  baseImage st = Some base →
  base ∈ images st
  ∧ ((∃ l1 l2, images st = l1 ++ base :: l2 ∧
               Some (Instance.id base) = selectedImageId st ∧
               ∀ m, m ∈ l1 → Some (Instance.id m) ≠ selectedImageId st)
     ∨ (head (images st) = Some base ∧
        ∀ m, m ∈ images st → Some (Instance.id m) ≠ selectedImageId st)).
Proof.
  unfold baseImage.
  destruct (find _ (images st)) as [img|] eqn:E.
  - intros [= ->]. apply find_first in E as (l1 & l2 & Hl & Hb & Hl1).
    split; [rewrite Hl; apply elem_of_app; right; by left|].
    left. exists l1, l2. split_and!; [done|by apply bool_decide_eq_true in Hb|].
    intros m Hm. apply Hl1 in Hm. by apply bool_decide_eq_false in Hm.
  - intros Hhead. split; [by apply head_Some_elem_of|].
    right. split; [done|]. intros m Hm%list_elem_of_In.
    apply (find_none _ _ E) in Hm. by apply bool_decide_eq_false in Hm.
Qed.

(** X9: [confirmMerge] hands a commit to the persistence collaborator exactly
    when the cluster has a member; on an empty cluster it returns at once and
    leaves the state as it was, the [merging] flag included.  A commit it
    sends holds one new member, copied from a member of the cluster, and its
    entity-scoped entries carry that member's content hash. *)
Theorem confirmMerge_needs_member (st : State) :
  ((confirmMerge st).2 = None ↔ images st = [])
  ∧ (images st = [] → (confirmMerge st).1 = st)
  ∧ (∀ commit, (confirmMerge st).2 = Some commit →
       ∃ base, base ∈ images st ∧
         DbCommit.instances commit = [Instance.with_id base (-1)] ∧
         (∀ e, e ∈ DbCommit.instanceValues commit →
               InstancePropertyValue.instanceId e = -1) ∧
         (∀ e, e ∈ DbCommit.imageValues commit →
               ImagePropertyValue.sha1 e = Instance.sha1 base)).
Proof.
  unfold confirmMerge. split_and!.
  - rewrite <- baseImage_None. by destruct (baseImage st).
  - intros Hnil%baseImage_None. by rewrite Hnil.
  - intros commit. destruct (baseImage st) as [base|] eqn:E; [|done].
    simpl. intros [= <-]. exists base. rewrite buildCommit_eq. simpl.
    split_and!.
    + unfold baseImage in E. destruct (find _ (images st)) as [img|] eqn:F.
      * injection E as ->. apply find_some in F as [F _]. by apply list_elem_of_In.
      * by apply head_Some_elem_of.
    + done.
    + intros e (row & _ & He)%list_elem_of_omap. unfold instance_entry in He.
      destruct (Property.mode (MergeRow.property row));
        destruct (resolved_value (selectedOptions st) row); by simplify_eq.
    + intros e (row & _ & He)%list_elem_of_omap. unfold image_entry in He.
      destruct (Property.mode (MergeRow.property row));
        destruct (resolved_value (selectedOptions st) row); by simplify_eq.
Qed.


(** *** When rows conflict *)

Lemma canonical_keys_length (members : list Instance.t) (S : Property.t) :
  length (canonical_keys members S)
  = length (filter (λ m, defined (Instance.get m (Property.id S))) members).
Proof.
  unfold canonical_keys, member_values. rewrite length_map.
  induction members as [|m members IH]; [done|]. cbn [map].
  destruct (defined (Instance.get m (Property.id S))) eqn:E.
  - rewrite !filter_cons_True by (rewrite ?E; exact I). simpl. by rewrite IH.
  - rewrite !filter_cons_False by (rewrite ?E; exact id). done.
Qed.

Lemma conflict_two_keys (members : list Instance.t) (S : Property.t) :
  MergeRow.conflict (row_of members S) = true →
  (2 ≤ length (canonical_keys members S))%nat.
Proof.
  intros (k1 & k2 & H1 & H2 & Hne)%conflict_row_of.
  destruct (canonical_keys members S) as [|a [|b l]]; simpl; [|exfalso|lia].
  - by apply elem_of_nil in H1.
  - apply list_elem_of_singleton in H1, H2. congruence.
Qed.

Lemma canonical_key_in (members : list Instance.t) (S : Property.t) (k : string) :
  k ∈ canonical_keys members S ↔
  ∃ m, m ∈ members ∧ defined (Instance.get m (Property.id S)) = true ∧
       k = stringifyValue (Instance.get m (Property.id S)) S.
Proof.
  unfold canonical_keys, member_values. rewrite list_elem_of_fmap. split.
  - intros (v & -> & [Hd (m & -> & Hm)%list_elem_of_fmap]%list_elem_of_filter).
    exists m. split_and!; [done| |done]. by apply Is_true_true.
  - intros (m & Hm & Hd & ->). exists (Instance.get m (Property.id S)).
    split; [done|]. apply list_elem_of_filter. split; [by apply Is_true_true|].
    apply list_elem_of_fmap. by exists m.
Qed.

(** X11: a row conflicts only if at least two members hold a value for its
    property, and then it offers at least three options; so a cluster of
    fewer than two members shows no conflict at all. *)
Theorem conflict_needs_two_holders (propertyList : list Property.t) (st : State) :
  (∀ row, row ∈ mergeRows (buildRows propertyList st) →
          MergeRow.conflict row = true →
          (2 ≤ length (filter (λ m, defined (Instance.get m
                                  (Property.id (MergeRow.property row))))
                              (images st)))%nat
          ∧ (3 ≤ length (MergeRow.options row))%nat)
  ∧ (someConflict (buildRows propertyList st) = true → (2 ≤ length (images st))%nat).
Proof.
  assert (∀ row, row ∈ mergeRows (buildRows propertyList st) →
          MergeRow.conflict row = true →
          (2 ≤ length (filter (λ m, defined (Instance.get m
                                  (Property.id (MergeRow.property row))))
                              (images st)))%nat) as Htwo.
  { intros row (Hrow & _)%row_in_buildRows Hc. rewrite Hrow in Hc.
    apply conflict_two_keys in Hc. by rewrite canonical_keys_length in Hc. }
  split.
  - intros row Hrow Hc. split; [by apply Htwo|].
    pose proof (Htwo row Hrow Hc) as Hlen.
    apply row_in_buildRows in Hrow as (Hrow & _).
    rewrite Hrow. unfold row_of. cbn [MergeRow.options].
    rewrite Hrow in Hc. unfold row_of in Hc. cbn [MergeRow.conflict] in Hc.
    rewrite Hc, length_app, length_map. simpl. lia.
  - unfold someConflict. rewrite existsb_exists.
    intros (row & Hrow%list_elem_of_In & Hc).
    pose proof (Htwo row Hrow Hc) as Hlen.
    etrans; [exact Hlen|]. apply length_filter.
Qed.

(** X12: for a cluster of one member every row has no conflict and the
    single option of that member; built without a prior selection, for a
    schema list with distinct identifiers, every row resolves to the member's
    own value. *)
Theorem single_member_echo (propertyList : list Property.t) (st : State)
    (m : Instance.t) (row : MergeRow.t) :
  images st = [m] →
  row ∈ mergeRows (buildRows propertyList st) →
  MergeRow.conflict row = false
  ∧ MergeRow.options row = [member_option (MergeRow.property row) m]
  ∧ (NoDup (map Property.id propertyList) →
     selectedOptions st !! Property.id (MergeRow.property row) = None →
     resolved_value (selectedOptions (buildRows propertyList st)) row
     = Some (Instance.get m (Property.id (MergeRow.property row)))).
Proof.
  intros Himgs Hrow.
  pose proof Hrow as (Hrow' & _ & _ & Hhas)%row_in_buildRows.
  assert (MergeRow.conflict row = false) as Hc.
  { apply not_true_is_false. rewrite Hrow'. intros Hc%conflict_two_keys.
    rewrite canonical_keys_length, Himgs in Hc.
    pose proof (length_filter
      (λ m, defined (Instance.get m (Property.id (MergeRow.property row)))) [m]) as Hle.
    simpl in Hle. lia. }
  assert (MergeRow.options row = [member_option (MergeRow.property row) m]) as Hopts.
  { rewrite Hrow' at 1. unfold row_of. cbn [MergeRow.options].
    rewrite Hrow' in Hc. unfold row_of in Hc. cbn [MergeRow.conflict] in Hc.
    rewrite Hc, app_nil_r.
    rewrite Himgs in Hhas |- *. unfold has_defined_value in Hhas.
    apply Exists_cons in Hhas as [Hd|Hnil]; [|by apply Exists_nil in Hnil].
    by rewrite filter_cons_True, filter_nil by (rewrite Hd; exact I). }
  split_and!; [done..|].
  intros Hnd Hnone.
  destruct (fresh_selection_resolves propertyList st row Hnd Hrow Hnone) as [-> _].
  by rewrite Hc, Hopts.
Qed.

(** X13: members that agree never conflict: when all the defined values the
    members hold for a property are equal, its row has no conflict and
    offers no combined option. *)
Theorem agreeing_members_no_conflict (propertyList : list Property.t) (st : State)
    (row : MergeRow.t) :
  row ∈ mergeRows (buildRows propertyList st) →
  (∀ m1 m2, m1 ∈ images st → m2 ∈ images st →
     defined (Instance.get m1 (Property.id (MergeRow.property row))) = true →
     defined (Instance.get m2 (Property.id (MergeRow.property row))) = true →
     Instance.get m1 (Property.id (MergeRow.property row))
     = Instance.get m2 (Property.id (MergeRow.property row))) →
  MergeRow.conflict row = false
  ∧ ∀ o, o ∈ MergeRow.options row → MergeOption.key o ≠ "combined".
Proof.
  intros Hrow Hagree.
  apply row_in_buildRows in Hrow as (Hrow & _).
  assert (MergeRow.conflict row = false) as Hc.
  { apply not_true_is_false. rewrite Hrow, conflict_row_of.
    intros (k1 & k2 & (m1 & Hm1 & Hd1 & ->)%canonical_key_in
                    & (m2 & Hm2 & Hd2 & ->)%canonical_key_in & Hne).
    apply Hne. by rewrite (Hagree m1 m2). }
  split; [done|]. intros o. rewrite Hrow. unfold row_of. cbn [MergeRow.options].
  rewrite Hrow in Hc. unfold row_of in Hc. cbn [MergeRow.conflict] in Hc.
  rewrite Hc, app_nil_r. intros (m & _ & _ & ->)%member_option_in.
  apply Number_toString_not_combined.
Qed.

(** X14: two members holding different integral numbers for a property
    always conflict, whatever the type of the property. *)
Theorem different_numbers_conflict (propertyList : list Property.t) (st : State)
    (row : MergeRow.t) (m1 m2 : Instance.t) (a b : Z) :
  row ∈ mergeRows (buildRows propertyList st) →
  m1 ∈ images st → m2 ∈ images st →
  Instance.get m1 (Property.id (MergeRow.property row)) = VNum a →
  Instance.get m2 (Property.id (MergeRow.property row)) = VNum b →
  a ≠ b →
  MergeRow.conflict row = true.
Proof.
  intros Hrow Hm1 Hm2 H1 H2 Hne.
  apply row_in_buildRows in Hrow as (Hrow & _).
  rewrite Hrow. apply conflict_row_of.
  exists (stringifyValue (VNum a) (MergeRow.property row)),
         (stringifyValue (VNum b) (MergeRow.property row)).
  split_and!.
  - apply canonical_key_in. exists m1. by rewrite H1.
  - apply canonical_key_in. exists m2. by rewrite H2.
  - unfold stringifyValue. simpl.
    destruct (bool_decide _); simpl; by intros ?%Number_toString_inj.
Qed.

(** *** What holds whenever the modal is on display *)

Lemma built_rows_selected (propertyList : list Property.t) (st : State)
    (row : MergeRow.t) :
  row ∈ mergeRows (buildRows propertyList st) →
  is_Some (selectedOptions (buildRows propertyList st)
             !! Property.id (MergeRow.property row)).
Proof.
  intros Hrow. rewrite buildRows_selection.
  destruct (selectedOptions st !! _) as [key|]; [by eauto|].
  destruct (find _ _) as [r|] eqn:E.
  - apply find_some in E as [Hr%list_elem_of_In _]. simpl.
    by apply built_row_default_key in Hr.
  - apply list_elem_of_In in Hrow. apply (find_none _ _ E) in Hrow.
    by apply bool_decide_eq_false in Hrow.
Qed.

(** X15: after [buildRows] every row has a selected key, whatever the prior
    selection was; and the keys selected before for any property are still
    there. *)
Theorem every_row_selected (propertyList : list Property.t) (st : State) :
  (∀ row, row ∈ mergeRows (buildRows propertyList st) →
          is_Some (selectedOptions (buildRows propertyList st)
                     !! Property.id (MergeRow.property row)))
  ∧ selectedOptions st ⊆ selectedOptions (buildRows propertyList st).
Proof.
  split; [intros row; apply built_rows_selected|].
  apply map_subseteq_spec. intros P key Hkey.
  by rewrite buildRows_selection, Hkey.
Qed.

Lemma step_displayed (propertyList : list Property.t) (w : World) (e : Event) :
  displayed propertyList (state w) → displayed propertyList (state (step propertyList w e)).
Proof.
  unfold displayed. intros [Hrows Hsel].
  destruct w as [st pend], e as [payload| |id|P key| |ok]; cbn [step state] in *.
  - destruct (onShow_state propertyList payload st) as (-> & _ & -> & ->).
    split.
    + by rewrite buildRows_rows.
    + intros row. apply built_rows_selected.
  - split; [by rewrite filter_no_member|]. by intros row ?%elem_of_nil.
  - done.
  - split; [done|]. intros row Hrow. cbn [selectedOptions set_selectedOptions].
    destruct (decide (P = Property.id (MergeRow.property row))) as [->|Hne].
    + rewrite lookup_insert_eq. by eauto.
    + rewrite lookup_insert_ne by done. by apply Hsel.
  - destruct (confirm_disabled st); [done|].
    unfold confirmMerge. by destruct (baseImage st).
  - destruct pend as [|c rest]; [done|]. cbn [state].
    destruct ok; simpl; [|done].
    split; [by rewrite filter_no_member|]. by intros row ?%elem_of_nil.
Qed.

(** X16: whatever the user does, the rows on display are those of the
    cluster on display, and each of them has a selected key: this holds
    after any sequence of events of the modal. *)
Theorem rows_always_current (propertyList : list Property.t) (events : list Event) :
  mergeRows (state (run propertyList (mkWorld initial []) events)) =
    map (row_of (images (state (run propertyList (mkWorld initial []) events))))
        (filter (λ S, user_resolvable S ∧
                      has_defined_value
                        (images (state (run propertyList (mkWorld initial []) events))) S)
                propertyList)
  ∧ ∀ row, row ∈ mergeRows (state (run propertyList (mkWorld initial []) events)) →
           is_Some (selectedOptions (state (run propertyList (mkWorld initial []) events))
                      !! Property.id (MergeRow.property row)).
Proof.
  assert (∀ w, displayed propertyList (state w) →
               displayed propertyList (state (run propertyList w events))) as Hrun.
  { unfold run. induction events as [|e events IH]; intros w Hw; simpl; [done|].
    by apply IH, step_displayed. }
  apply (Hrun (mkWorld initial [])).
  split; [by rewrite filter_no_member|]. by intros row ?%elem_of_nil.
Qed.

(** *** Canonical keys of plain values *)

Lemma String_app_assoc (a b c : string) : (a +:+ b) +:+ c = a +:+ (b +:+ c).
Proof.
  induction a as [|x a IH]; [done|].
  change (String x ((a +:+ b) +:+ c) = String x (a +:+ (b +:+ c))).
  by rewrite IH.
Qed.

Lemma json_unescape_escape (c : ascii) (rest : string) :
  json_unescape_head (json_escape c +:+ rest) = Some (c, rest).
Proof. destruct c as [[] [] [] [] [] [] [] []]; reflexivity. Qed.

Lemma json_escape_string_inj (s1 s2 : string) :
  json_escape_string s1 +:+ String dquote "" = json_escape_string s2 +:+ String dquote "" →
  s1 = s2.
Proof.
  revert s2. induction s1 as [|c1 s1 IH]; intros [|c2 s2]; cbn [json_escape_string].
  - done.
  - rewrite String_app_assoc. intros H.
    apply (f_equal json_unescape_head) in H.
    by rewrite json_unescape_escape in H.
  - rewrite String_app_assoc. intros H.
    apply (f_equal json_unescape_head) in H.
    by rewrite json_unescape_escape in H.
  - rewrite !String_app_assoc. intros H.
    apply (f_equal json_unescape_head) in H.
    rewrite !json_unescape_escape in H. injection H as -> H.
    by rewrite (IH s2).
Qed.

Lemma JSON_quote_inj (s1 s2 : string) : JSON_quote s1 = JSON_quote s2 → s1 = s2.
Proof. unfold JSON_quote. intros [= H]. by apply json_escape_string_inj. Qed.

Lemma Number_toString_not_quoted (n : Z) (rest : string) :
  Number_toString n ≠ String dquote rest.
Proof.
  unfold Number_toString. intros H.
  destruct (to_int_proper n) as [H1 H2].
  apply (f_equal NilZero.int_of_string) in H.
  rewrite NilZero.isi in H by done.
  unfold NilZero.int_of_string, NilZero.uint_of_string in H. simpl in H.
  by destruct (NilEmpty.uint_of_string rest).
Qed.

Lemma Number_toString_not_boolean (n : Z) (b : bool) :
  Number_toString n ≠ (if b then "true" else "false").
Proof.
  unfold Number_toString. intros H.
  destruct (to_int_proper n) as [H1 H2].
  apply (f_equal NilZero.int_of_string) in H.
  rewrite NilZero.isi in H by done. by destruct b.
Qed.

Lemma JSON_stringify_scalar_inj (x y : JsScalar) :
  is_plain x = true → is_plain y = true →
  JSON_stringify_scalar x = JSON_stringify_scalar y → x = y.
Proof.
  destruct x as [| |a|a|a|? ?], y as [| |b|b|b|? ?]; try discriminate; intros _ _; simpl.
  - by destruct a, b.
  - intros H. symmetry in H. destruct a.
    + by apply (Number_toString_not_boolean b true) in H.
    + by apply (Number_toString_not_boolean b false) in H.
  - unfold JSON_quote. by destruct a.
  - intros H. destruct b.
    + by apply (Number_toString_not_boolean a true) in H.
    + by apply (Number_toString_not_boolean a false) in H.
  - by intros ->%Number_toString_inj.
  - unfold JSON_quote. by intros ?%Number_toString_not_quoted.
  - unfold JSON_quote. by destruct b.
  - unfold JSON_quote. intros H. symmetry in H.
    by apply Number_toString_not_quoted in H.
  - by intros ->%JSON_quote_inj.
Qed.

(** X17: for a property that is not color-typed the canonical key tells
    plain values apart: two booleans, integral numbers or strings, of the
    same kind or not, have the same key only if they are the same value; so
    two members holding different plain values always conflict. *)
Theorem plain_keys_injective (S : Property.t) :
  Property.type S ≠ PropertyType.color →
  (∀ x y, is_plain x = true → is_plain y = true →
          stringifyValue (VScalar x) S = stringifyValue (VScalar y) S → x = y)
  ∧ (∀ propertyList st row m1 m2 x y,
       row ∈ mergeRows (buildRows propertyList st) → MergeRow.property row = S →
       m1 ∈ images st → m2 ∈ images st →
       Instance.get m1 (Property.id S) = VScalar x →
       Instance.get m2 (Property.id S) = VScalar y →
       is_plain x = true → is_plain y = true → x ≠ y →
       MergeRow.conflict row = true).
Proof.
  intros Hcolor.
  assert (∀ x y, is_plain x = true → is_plain y = true →
          stringifyValue (VScalar x) S = stringifyValue (VScalar y) S → x = y) as Hinj.
  { intros x y Hx Hy. unfold stringifyValue.
    rewrite bool_decide_eq_false_2 by done.
    destruct x as [| |a|a|a|? ?], y as [| |b|b|b|? ?]; try discriminate;
      by apply JSON_stringify_scalar_inj. }
  split; [done|].
  intros propertyList st row m1 m2 x y Hrow HS Hm1 Hm2 H1 H2 Hx Hy Hne.
  apply row_in_buildRows in Hrow as (Hrow & _).
  rewrite Hrow, HS. apply conflict_row_of.
  exists (stringifyValue (VScalar x) S), (stringifyValue (VScalar y) S).
  split_and!.
  - apply canonical_key_in. exists m1. rewrite H1. split_and!; [done| |done].
    by destruct x.
  - apply canonical_key_in. exists m2. rewrite H2. split_and!; [done| |done].
    by destruct y.
  - intros Heq. by apply Hne, Hinj.
Qed.

(** *** The preview of the combined option *)

Section PreviewFacts.

Variable Property_tags : Property.t → option (gmap string Tag.t).




(** X19: for a property that is not tag-typed the preview text of the
    combined option is the very string that the combined option stores as its
    value; with no defined value the preview is the "none" message, while the
    combined value is [undefined]. *)
Theorem combinedLabel_is_combined_value (values : list JsValue) (S : Property.t) :
  isTag (Property.type S) = false →
  (Exists (λ v, defined v = true) values →
   combineValues values S = VStr (combinedLabel Property_tags values S))
  ∧ (Forall (λ v, defined v = false) values →
     combinedLabel Property_tags values S = t "none" ∧
     combineValues values S = undefined).
Proof.
  intros Htag. unfold combineValues, combinedLabel. rewrite Htag. split.
  - intros Hsome%some_defined_filter. by rewrite bool_decide_eq_false_2.
  - intros Hnone%no_defined_filter. by rewrite Hnone.
Qed.






End PreviewFacts.

End Component.

(** ** Part V: the properties at work on sample clusters *)

(** The two-member scenario end to end: one conflicting row for [p_name],
    the combined option pre-selected; picking member 1 and confirming sends
    its value under the content hash of the base member. *)
Example end_to_end_two_members :
  mergeRows (buildRows messages_en host_Date_toString [p_name]
               (opened [member_1; member_2])) = [row_name_12]
  ∧ selectedOptions (buildRows messages_en host_Date_toString [p_name]
                       (opened [member_1; member_2])) !! 1 = Some "combined"
  ∧ DbCommit.imageValues (buildCommit member_1 [row_name_12] {[ 1 := "1" ]})
    = [ImagePropertyValue.mk 1 "h1" (VStr "A")]
  ∧ DbCommit.instanceValues (buildCommit member_1 [row_name_12] {[ 1 := "1" ]}) = [].
Proof. split_and!; vm_compute; reflexivity. Qed.

Lemma buildRows_row_iff_witness :
  (images (opened []) = [] ∧
   mergeRows (buildRows messages_en host_Date_toString catalog (opened [])) = [])
  ∧ map MergeRow.property
      (mergeRows (buildRows messages_en host_Date_toString catalog
                    (opened [member_1; member_2])))
    = [p_name; p_tags].
Proof.
  destruct (buildRows_row_iff messages_en host_Date_toString catalog (opened []))
    as (_ & _ & _ & Hempty).
  destruct (buildRows_row_iff messages_en host_Date_toString catalog
              (opened [member_1; member_2])) as (Heq & _).
  split.
  - split; [reflexivity|]. apply Hempty. reflexivity.
  - rewrite Heq. vm_compute. reflexivity.
Defined.

Lemma conflict_iff_distinct_keys_witness :
  (row_name_12 ∈ mergeRows (buildRows messages_en host_Date_toString catalog
                              (opened [member_1; member_2])) ∧
   MergeRow.conflict row_name_12 = true ∧
   ∃ k1 k2, k1 ∈ canonical_keys host_Date_toString [member_1; member_2] p_name ∧
            k2 ∈ canonical_keys host_Date_toString [member_1; member_2] p_name ∧
            k1 ≠ k2)
  ∧ (identifiers [SStr "a"; SStr "b"] ∧ [SStr "a"; SStr "b"] ≡ₚ [SStr "b"; SStr "a"] ∧
     stringifyValue host_Date_toString (VArray [SStr "a"; SStr "b"]) p_tags =
     stringifyValue host_Date_toString (VArray [SStr "b"; SStr "a"]) p_tags)
  ∧ (∀ row,
       row ∈ mergeRows (buildRows messages_en host_Date_toString [p_tags]
                          (opened [member_1; member_2])) →
       MergeRow.conflict row = false).
Proof.
  destruct (conflict_iff_distinct_keys messages_en host_Date_toString)
    as (Hiff & Hperm & Hrow).
  assert (row_name_12 ∈ mergeRows (buildRows messages_en host_Date_toString catalog
                                     (opened [member_1; member_2]))) as Hin12.
  { vm_compute. left. }
  assert (identifiers [SStr "a"; SStr "b"]) as Hid.
  { right. repeat constructor. }
  assert ([SStr "a"; SStr "b"] ≡ₚ [SStr "b"; SStr "a"]) as Hp.
  { apply perm_swap. }
  split_and!.
  - exact Hin12.
  - reflexivity.
  - apply (Hiff catalog (opened [member_1; member_2]) row_name_12 Hin12). reflexivity.
  - exact Hid.
  - exact Hp.
  - apply Hperm; assumption.
  - intros row Hin.
    assert (MergeRow.property row = p_tags) as HS.
    { vm_compute in Hin. inversion Hin as [|? ? ? Hnil]; [reflexivity|inversion Hnil]. }
    apply (Hrow [p_tags] (opened [member_1; member_2]) member_1 member_2
             [SStr "a"; SStr "b"] [SStr "b"; SStr "a"] row);
      [reflexivity|exact Hin|rewrite HS; reflexivity|rewrite HS; reflexivity
      |exact Hid|exact Hp].
Defined.

(** Outside identifiers the order can matter: the sort is stable and the
    number 1 and the string "1" compare equal. *)
Example mixed_array_order_matters :
  stringifyValue host_Date_toString (VArray [SNum 1; SStr "1"]) p_tags
  ≠ stringifyValue host_Date_toString (VArray [SStr "1"; SNum 1]) p_tags.
Proof. vm_compute. discriminate. Qed.

Lemma buildRows_keeps_prior_selection_witness :
  ((<[1 := "2"]> (selectedOptions (opened [member_1; member_2]))) !! 1 = Some "2" ∧
   selectedOptions
     (buildRows messages_en host_Date_toString catalog
        (set_selectedOptions (<[1 := "2"]> ∅) (opened [member_1; member_2]))) !! 1
   = Some "2")
  ∧ (selectedOptions (opened [member_1; member_2]) !! 1 = None ∧
     selectedOptions
       (buildRows messages_en host_Date_toString catalog (opened [member_1; member_2])) !! 1
     = Some "combined").
Proof.
  split.
  - split; [reflexivity|].
    apply (buildRows_keeps_prior_selection messages_en host_Date_toString catalog
             (set_selectedOptions (<[1 := "2"]> ∅) (opened [member_1; member_2])) 1).
    reflexivity.
  - split; [reflexivity|].
    destruct (buildRows_keeps_prior_selection messages_en host_Date_toString catalog
                (opened [member_1; member_2]) 1) as [_ Hdefault].
    rewrite Hdefault by reflexivity. vm_compute. reflexivity.
Defined.

(** C3, as stated, fails: the prior key "2" names no option of the row built
    for [member_1] alone, and yet it is the selection after the rebuild, not
    the key "1" of the default rule. *)
Lemma stale_selection_is_kept :
  mergeRows (buildRows messages_en host_Date_toString [p_name] stale_cluster)
    = [row_name_1]
  ∧ selectedOptions stale_cluster !! 1 = Some "2"
  ∧ ¬ ("2" ∈ map MergeOption.key (MergeRow.options row_name_1))
  ∧ default_key row_name_1 = Some "1"
  ∧ selectedOptions (buildRows messages_en host_Date_toString [p_name] stale_cluster) !! 1
    = Some "2"
  ∧ selectedOptions (buildRows messages_en host_Date_toString [p_name] stale_cluster) !! 1
    ≠ default_key row_name_1.
Proof.
  split_and!.
  - vm_compute. reflexivity.
  - reflexivity.
  - intros H. vm_compute in H. apply list_elem_of_singleton in H. discriminate.
  - reflexivity.
  - vm_compute. reflexivity.
  - vm_compute. discriminate.
Qed.

Lemma buildCommit_routes_by_scope_witness :
  scopes_agree [row_name_1; row_tags_1]
  ∧ DbCommit.instanceValues
      (buildCommit member_1 [row_name_1; row_tags_1] {[ 1 := "1"; 2 := "1" ]})
    = [InstancePropertyValue.mk 2 (-1) (VArray [SStr "a"; SStr "b"])]
  ∧ DbCommit.imageValues
      (buildCommit member_1 [row_name_1; row_tags_1] {[ 1 := "1"; 2 := "1" ]})
    = [ImagePropertyValue.mk 1 "h1" (VStr "A")]
  ∧ ∀ e1 e2,
      e1 ∈ DbCommit.instanceValues
             (buildCommit member_1 [row_name_1; row_tags_1] {[ 1 := "1"; 2 := "1" ]}) →
      e2 ∈ DbCommit.imageValues
             (buildCommit member_1 [row_name_1; row_tags_1] {[ 1 := "1"; 2 := "1" ]}) →
      InstancePropertyValue.propertyId e1 ≠ ImagePropertyValue.propertyId e2.
Proof.
  destruct (buildCommit_routes_by_scope member_1 [row_name_1; row_tags_1]
              {[ 1 := "1"; 2 := "1" ]}) as (_ & Hinst & Himg & _ & Hdisjoint).
  assert (scopes_agree [row_name_1; row_tags_1]) as Hagree.
  { refine (bool_decide_unpack _ _). vm_compute. exact I. }
  split; [exact Hagree|].
  split; [rewrite Hinst; vm_compute; reflexivity|].
  split; [rewrite Himg; vm_compute; reflexivity|].
  exact (Hdisjoint Hagree).
Defined.

Lemma submit_guarded_by_control_witness :
  (confirmMerge (opened [member_1])).2
    = Some (buildCommit member_1 [] ∅)
  ∧ merging (confirmMerge (opened [member_1])).1 = true
  ∧ (length (pending
       (run messages_en host_Date_toString catalog (mkWorld initial [])
          [Show (Some [member_1; member_2]); ClickConfirm; ClickConfirm;
           PickOption 1 "1"; ClickConfirm])) ≤ 1)%nat.
Proof.
  destruct (submit_guarded_by_control messages_en host_Date_toString catalog)
    as (_ & Hset & _ & Hone).
  split; [reflexivity|].
  split; [exact (Hset (opened [member_1]) _ eq_refl)|].
  apply Hone.
Defined.

(** C5, as stated, fails: invoked while the guard is set, the routine still
    hands a commit to the persistence collaborator. *)
Lemma confirmMerge_ignores_guard :
  merging submitting_cluster = true
  ∧ (confirmMerge submitting_cluster).2
    = Some (buildCommit member_1 [row_name_1; row_tags_1] {[ 1 := "1"; 2 := "1" ]})
  ∧ (confirmMerge submitting_cluster).2 ≠ None.
Proof. split_and!; [reflexivity|reflexivity|discriminate]. Qed.

Lemma combineValues_tags_witness :
  isTag (Property.type p_tags) = true
  ∧ Exists (λ v, defined v = true) [VArray [SNum 1; SNum 2]; VArray [SNum 2; SNum 3]]
  ∧ identifiers (referenced_ids [VArray [SNum 1; SNum 2]; VArray [SNum 2; SNum 3]])
  ∧ combineValues messages_en host_Date_toString
      [VArray [SNum 1; SNum 2]; VArray [SNum 2; SNum 3]] p_tags
    = VArray [SNum 1; SNum 2; SNum 3]
  ∧ combineValues messages_en host_Date_toString [] p_tags = undefined.
Proof.
  assert (Exists (λ v, defined v = true)
            [VArray [SNum 1; SNum 2]; VArray [SNum 2; SNum 3]]) as Hex.
  { left. reflexivity. }
  assert (identifiers
            (referenced_ids [VArray [SNum 1; SNum 2]; VArray [SNum 2; SNum 3]])) as Hid.
  { left. vm_compute. repeat constructor. }
  destruct (combineValues_tags messages_en host_Date_toString
              [VArray [SNum 1; SNum 2]; VArray [SNum 2; SNum 3]] p_tags eq_refl)
    as [_ Hsome].
  destruct (Hsome Hex Hid) as (Heq & _ & _).
  destruct (combineValues_tags messages_en host_Date_toString [] p_tags eq_refl)
    as [Hnone _].
  split; [reflexivity|]. split; [exact Hex|]. split; [exact Hid|].
  split; [rewrite Heq; vm_compute; reflexivity|].
  apply Hnone. constructor.
Defined.

(** C6, as stated, fails on the empty list of values: the result is not the
    empty sequence but [undefined]. *)
Lemma no_defined_tag_value_gives_undefined :
  isTag (Property.type p_tags) = true
  ∧ combineValues messages_en host_Date_toString [] p_tags = undefined
  ∧ combineValues messages_en host_Date_toString [] p_tags
    ≠ VArray (first_seen (referenced_ids [])).
Proof. split_and!; [reflexivity|reflexivity|discriminate]. Qed.

Lemma combineValues_text_witness :
  isTag (Property.type p_name) = false
  ∧ Property.type p_name ≠ PropertyType.checkbox
  ∧ Exists (λ v, defined v = true) [VNum 3; null; VBool true]
  ∧ combineValues messages_en host_Date_toString [VStr "red"; VStr "blue"] p_name
    = VStr "red -- blue"
  ∧ combineValues messages_en host_Date_toString [VNum 3; null; VBool true] p_name
    = VStr "3 -- true".
Proof.
  assert (Property.type p_name ≠ PropertyType.checkbox) as Hbox by discriminate.
  assert (Exists (λ v, defined v = true) [VNum 3; null; VBool true]) as Hex.
  { left. reflexivity. }
  destruct (combineValues_text messages_en host_Date_toString
              [VNum 3; null; VBool true] p_name eq_refl) as (_ & Hjoin & Hred).
  split; [reflexivity|]. split; [exact Hbox|]. split; [exact Hex|].
  split; [exact (Hred Hbox)|].
  rewrite (Hjoin Hex). vm_compute. reflexivity.
Defined.

(** C7, as stated, fails: "red" and "blue" are joined by two hyphens between
    spaces, not by an em dash; and with no defined value the result is
    [undefined], not a string. *)
Lemma separator_is_two_hyphens :
  isTag (Property.type p_name) = false
  ∧ combineValues messages_en host_Date_toString [VStr "red"; VStr "blue"] p_name
    = VStr "red -- blue"
  ∧ combineValues messages_en host_Date_toString [VStr "red"; VStr "blue"] p_name
    ≠ VStr "red — blue"
  ∧ "red — blue" = "red" +:+ em_dash_separator +:+ "blue"
  ∧ combineValues messages_en host_Date_toString [] p_name = undefined.
Proof.
  split_and!; [reflexivity|reflexivity|vm_compute; discriminate|reflexivity|reflexivity].
Qed.

Lemma buildCommit_omits_unresolvable_witness :
  (∀ o, o ∈ MergeRow.options row_name_1 →
        Some (MergeOption.key o)
        ≠ ({[ 1 := "2"; 2 := "1" ]} : gmap Z string)
            !! Property.id (MergeRow.property row_name_1))
  ∧ buildCommit member_1 ([] ++ row_name_1 :: [row_tags_1]) {[ 1 := "2"; 2 := "1" ]}
    = {| DbCommit.instances := [Instance.with_id member_1 (-1)];
         DbCommit.instanceValues :=
           [InstancePropertyValue.mk 2 (-1) (VArray [SStr "a"; SStr "b"])];
         DbCommit.imageValues := [] |}
  ∧ (confirmMerge unresolvable_cluster).2
    = Some {| DbCommit.instances := [Instance.with_id member_1 (-1)];
              DbCommit.instanceValues :=
                [InstancePropertyValue.mk 2 (-1) (VArray [SStr "a"; SStr "b"])];
              DbCommit.imageValues := [] |}.
Proof.
  assert (∀ o, o ∈ MergeRow.options row_name_1 →
            Some (MergeOption.key o)
            ≠ ({[ 1 := "2"; 2 := "1" ]} : gmap Z string)
                !! Property.id (MergeRow.property row_name_1)) as Hstale.
  { intros o Ho. apply list_elem_of_singleton in Ho. rewrite Ho.
    vm_compute. discriminate. }
  destruct (buildCommit_omits_unresolvable member_1 [] [row_tags_1] row_name_1
              {[ 1 := "2"; 2 := "1" ]} (or_introl Hstale)) as [Heq Hsent].
  split; [exact Hstale|].
  split; [rewrite Heq; vm_compute; reflexivity|].
  rewrite (Hsent unresolvable_cluster eq_refl eq_refl eq_refl).
  vm_compute. reflexivity.
Defined.

Lemma stringifyValue_absent_key_witness :
  defined (VStr "#ff0000") = true
  ∧ stringifyValue host_Date_toString (VStr "#ff0000") p_color
    ≠ stringifyValue host_Date_toString undefined p_color
  ∧ stringifyValue host_Date_toString (VStr "__undefined__") p_name
    ≠ stringifyValue host_Date_toString undefined p_name.
Proof.
  destruct (stringifyValue_absent_key host_Date_toString (VStr "#ff0000") p_color eq_refl)
    as [_ Hcolor].
  destruct (stringifyValue_absent_key host_Date_toString (VStr "__undefined__") p_name eq_refl)
    as [_ Hname].
  split; [reflexivity|]. split.
  - intros H. apply Hcolor in H. destruct H as [_ H]. discriminate H.
  - intros H. apply Hname in H. destruct H as [H _]. discriminate H.
Defined.

(** C9, as stated, fails: a color-typed property holding the string
    "__undefined__" gets the key of an absent value. *)
Lemma color_key_collides_with_absent :
  defined (VStr "__undefined__") = true
  ∧ Property.type p_color = PropertyType.color
  ∧ stringifyValue host_Date_toString (VStr "__undefined__") p_color
    = stringifyValue host_Date_toString undefined p_color.
Proof. split_and!; reflexivity. Qed.

(** C10, as stated, fails: when the base member is the one whose [null] entry
    becomes a missing entry, the new member of the change set changes with
    it. *)
Lemma null_entry_reaches_commit :
  Instance.properties member_3 !! 1 = Some null
  ∧ (confirmMerge (buildRows messages_en host_Date_toString catalog (opened [member_3]))).2
    = Some {| DbCommit.instances := [Instance.with_id member_3 (-1)];
              DbCommit.instanceValues := []; DbCommit.imageValues := [] |}
  ∧ (confirmMerge (buildRows messages_en host_Date_toString catalog
                     (opened [forget_null 1 member_3]))).2
    = Some {| DbCommit.instances := [Instance.with_id (forget_null 1 member_3) (-1)];
              DbCommit.instanceValues := []; DbCommit.imageValues := [] |}
  ∧ (confirmMerge (buildRows messages_en host_Date_toString catalog (opened [member_3]))).2
    ≠ (confirmMerge (buildRows messages_en host_Date_toString catalog
                       (opened [forget_null 1 member_3]))).2.
Proof.
  split_and!.
  - reflexivity.
  - vm_compute. reflexivity.
  - vm_compute. reflexivity.
  - vm_compute. discriminate.
Qed.

Lemma null_entry_as_missing_witness :
  Instance.properties member_3 !! 1 = Some null
  ∧ mergeRows (buildRows messages_en host_Date_toString catalog
                 (set_groupData (Some ([member_1] ++ forget_null 1 member_3 :: []))
                    (opened [member_1])))
    = mergeRows (buildRows messages_en host_Date_toString catalog
                   (set_groupData (Some ([member_1] ++ member_3 :: []))
                      (opened [member_1])))
  ∧ selectedOptions (buildRows messages_en host_Date_toString catalog
                       (set_groupData (Some ([member_1] ++ forget_null 1 member_3 :: []))
                          (opened [member_1])))
    = selectedOptions (buildRows messages_en host_Date_toString catalog
                         (set_groupData (Some ([member_1] ++ member_3 :: []))
                            (opened [member_1]))).
Proof.
  destruct (null_entry_as_missing messages_en host_Date_toString catalog
              (opened [member_1]) [member_1] [] member_3 1) as (Hrows & Hsel & _).
  split; [reflexivity|]. split; [exact Hrows|exact Hsel].
Defined.

(** ** Part VII: the further properties at work on sample clusters *)

Lemma built_row_shape_witness :
  row_name_12 ∈ mergeRows (buildRows messages_en host_Date_toString catalog
                             (opened [member_1; member_2]))
  ∧ MergeRow.options row_name_12 ≠ []
  ∧ (∀ o, o ∈ MergeRow.options row_name_12 → defined (MergeOption.value o) = true)
  ∧ length (filter (λ o, MergeOption.sourceImageId o = None)
                   (MergeRow.options row_name_12)) = 1%nat.
Proof.
  assert (row_name_12 ∈ mergeRows (buildRows messages_en host_Date_toString catalog
                                     (opened [member_1; member_2]))) as Hin.
  { vm_compute. left. }
  destruct (built_row_shape messages_en host_Date_toString catalog
              (opened [member_1; member_2]) row_name_12 Hin)
    as (_ & Hne & Hdef & _ & Hlen).
  split; [exact Hin|]. split; [exact Hne|]. split; [exact Hdef|exact Hlen].
Defined.

Lemma option_keys_distinct_witness :
  NoDup (map Instance.id (images (opened [member_1; member_2])))
  ∧ row_name_12 ∈ mergeRows (buildRows messages_en host_Date_toString catalog
                               (opened [member_1; member_2]))
  ∧ NoDup (map MergeOption.key (MergeRow.options row_name_12)).
Proof.
  assert (NoDup (map Instance.id (images (opened [member_1; member_2])))) as Hids.
  { refine (bool_decide_unpack _ _). vm_compute. exact I. }
  assert (row_name_12 ∈ mergeRows (buildRows messages_en host_Date_toString catalog
                                     (opened [member_1; member_2]))) as Hin.
  { vm_compute. left. }
  destruct (option_keys_distinct messages_en host_Date_toString catalog
              (opened [member_1; member_2]) row_name_12 Hids Hin) as [Hnd _].
  split; [exact Hids|]. split; [exact Hin|exact Hnd].
Defined.

Lemma picked_option_resolves_witness :
  row_name_12 ∈ mergeRows (buildRows messages_en host_Date_toString catalog
                             (opened [member_1; member_2]))
  ∧ member_2 ∈ images (opened [member_1; member_2])
  ∧ resolved_value {[ 1 := "2" ]} row_name_12 = Some (VStr "B")
  ∧ resolved_value {[ 1 := "combined" ]} row_name_12 = Some (VStr "A -- B").
Proof.
  assert (NoDup (map Instance.id (images (opened [member_1; member_2])))) as Hids.
  { refine (bool_decide_unpack _ _). vm_compute. exact I. }
  assert (row_name_12 ∈ mergeRows (buildRows messages_en host_Date_toString catalog
                                     (opened [member_1; member_2]))) as Hin.
  { vm_compute. left. }
  assert (member_2 ∈ images (opened [member_1; member_2])) as Hm.
  { right. left. }
  destruct (picked_option_resolves messages_en host_Date_toString catalog
              (opened [member_1; member_2]) row_name_12 {[ 1 := "2" ]} Hin)
    as [Hpick _].
  destruct (picked_option_resolves messages_en host_Date_toString catalog
              (opened [member_1; member_2]) row_name_12 {[ 1 := "combined" ]} Hin)
    as [_ Hcombined].
  split; [exact Hin|]. split; [exact Hm|]. split.
  - exact (Hpick member_2 Hids Hm eq_refl eq_refl).
  - exact (Hcombined eq_refl eq_refl).
Defined.

Lemma default_selection_resolves_witness :
  NoDup (map Property.id catalog)
  ∧ selectedOptions (opened [member_1; member_2]) !! 1 = None
  ∧ selectedOptions (buildRows messages_en host_Date_toString catalog
                       (opened [member_1; member_2])) !! 1 = Some "combined"
  ∧ resolved_value
      (selectedOptions (buildRows messages_en host_Date_toString catalog
                          (opened [member_1; member_2]))) row_name_12
    = Some (VStr "A -- B").
Proof.
  assert (NoDup (map Property.id catalog)) as Hnd.
  { refine (bool_decide_unpack _ _). vm_compute. exact I. }
  assert (row_name_12 ∈ mergeRows (buildRows messages_en host_Date_toString catalog
                                     (opened [member_1; member_2]))) as Hin.
  { vm_compute. left. }
  destruct (default_selection_resolves messages_en host_Date_toString catalog
              (opened [member_1; member_2]) row_name_12 Hnd Hin eq_refl)
    as (Hsel & Hres & _).
  split; [exact Hnd|]. split; [reflexivity|]. split; [exact Hsel|exact Hres].
Defined.

Lemma open_then_confirm_witness :
  NoDup (map Property.id catalog)
  ∧ ∃ commit,
      (confirmMerge (onShow messages_en host_Date_toString catalog
                       (Some (member_1 :: [member_2])) initial)).2 = Some commit
      ∧ DbCommit.instances commit = [Instance.with_id member_1 (-1)]
      ∧ (length (DbCommit.instanceValues commit) + length (DbCommit.imageValues commit)
         = length (mergeRows (onShow messages_en host_Date_toString catalog
                                (Some (member_1 :: [member_2])) initial)))%nat.
Proof.
  assert (NoDup (map Property.id catalog)) as Hnd.
  { refine (bool_decide_unpack _ _). vm_compute. exact I. }
  split; [exact Hnd|].
  exact (open_then_confirm messages_en host_Date_toString catalog member_1
           [member_2] initial Hnd).
Defined.

Lemma baseImage_choice_witness :
  baseImage (set_selectedImageId (Some 2) (opened [member_1; member_2])) = Some member_2
  ∧ member_2 ∈ images (set_selectedImageId (Some 2) (opened [member_1; member_2])).
Proof.
  destruct (baseImage_choice (set_selectedImageId (Some 2) (opened [member_1; member_2]))
              member_2 eq_refl) as [Hin _].
  split; [reflexivity|exact Hin].
Defined.

Lemma confirmMerge_needs_member_witness :
  (images (opened []) = [] ∧ (confirmMerge (opened [])).1 = opened []
   ∧ (confirmMerge (opened [])).2 = None)
  ∧ ((confirmMerge unresolvable_cluster).2
       = Some (buildCommit member_1 [row_name_1; row_tags_1] {[ 1 := "2"; 2 := "1" ]})
     ∧ ∃ base, base ∈ images unresolvable_cluster ∧
         DbCommit.instances
           (buildCommit member_1 [row_name_1; row_tags_1] {[ 1 := "2"; 2 := "1" ]})
         = [Instance.with_id base (-1)]).
Proof.
  destruct (confirmMerge_needs_member (opened [])) as (Hiff & Hsame & _).
  destruct (confirmMerge_needs_member unresolvable_cluster) as (_ & _ & Hsent).
  split.
  - split; [reflexivity|]. split; [exact (Hsame eq_refl)|].
    apply Hiff. reflexivity.
  - split; [reflexivity|].
    destruct (Hsent _ eq_refl) as (base & Hin & Hinst & _).
    exists base. split; [exact Hin|exact Hinst].
Defined.

Lemma conflict_needs_two_holders_witness :
  row_name_12 ∈ mergeRows (buildRows messages_en host_Date_toString catalog
                             (opened [member_1; member_2]))
  ∧ MergeRow.conflict row_name_12 = true
  ∧ (3 ≤ length (MergeRow.options row_name_12))%nat
  ∧ someConflict (buildRows messages_en host_Date_toString catalog
                    (opened [member_1; member_2])) = true
  ∧ (2 ≤ length (images (opened [member_1; member_2])))%nat.
Proof.
  assert (row_name_12 ∈ mergeRows (buildRows messages_en host_Date_toString catalog
                                     (opened [member_1; member_2]))) as Hin.
  { vm_compute. left. }
  destruct (conflict_needs_two_holders messages_en host_Date_toString catalog
              (opened [member_1; member_2])) as [Hrow Hsome].
  destruct (Hrow row_name_12 Hin eq_refl) as [_ Hthree].
  split; [exact Hin|]. split; [reflexivity|]. split; [exact Hthree|].
  split; [reflexivity|]. apply Hsome. reflexivity.
Defined.

Lemma single_member_echo_witness :
  images (opened [member_1]) = [member_1]
  ∧ row_name_1 ∈ mergeRows (buildRows messages_en host_Date_toString catalog
                              (opened [member_1]))
  ∧ NoDup (map Property.id catalog)
  ∧ MergeRow.conflict row_name_1 = false
  ∧ resolved_value
      (selectedOptions (buildRows messages_en host_Date_toString catalog
                          (opened [member_1]))) row_name_1
    = Some (VStr "A").
Proof.
  assert (NoDup (map Property.id catalog)) as Hnd.
  { refine (bool_decide_unpack _ _). vm_compute. exact I. }
  assert (row_name_1 ∈ mergeRows (buildRows messages_en host_Date_toString catalog
                                    (opened [member_1]))) as Hin.
  { vm_compute. left. }
  destruct (single_member_echo messages_en host_Date_toString catalog
              (opened [member_1]) member_1 row_name_1 eq_refl Hin)
    as (Hc & _ & Hecho).
  split; [reflexivity|]. split; [exact Hin|]. split; [exact Hnd|].
  split; [exact Hc|exact (Hecho Hnd eq_refl)].
Defined.

Lemma agreeing_members_no_conflict_witness :
  row_count_46 ∈ mergeRows (buildRows messages_en host_Date_toString [p_count]
                              (opened [member_4; member_6]))
  ∧ (∀ m, m ∈ images (opened [member_4; member_6]) → Instance.get m 6 = VNum 3)
  ∧ MergeRow.conflict row_count_46 = false.
Proof.
  assert (row_count_46 ∈ mergeRows (buildRows messages_en host_Date_toString [p_count]
                                      (opened [member_4; member_6]))) as Hin.
  { vm_compute. left. }
  assert (∀ m, m ∈ images (opened [member_4; member_6]) → Instance.get m 6 = VNum 3)
    as Hall.
  { intros m Hm. change (m ∈ [member_4; member_6]) in Hm.
    apply elem_of_cons in Hm as [->|Hm]; [reflexivity|].
    apply list_elem_of_singleton in Hm as ->. reflexivity. }
  destruct (agreeing_members_no_conflict messages_en host_Date_toString [p_count]
              (opened [member_4; member_6]) row_count_46 Hin) as [Hc _].
  { intros m1 m2 H1 H2 _ _.
    change (Instance.get m1 6 = Instance.get m2 6).
    rewrite (Hall m1 H1), (Hall m2 H2). reflexivity. }
  split; [exact Hin|]. split; [exact Hall|exact Hc].
Defined.

Lemma different_numbers_conflict_witness :
  row_count_45 ∈ mergeRows (buildRows messages_en host_Date_toString [p_count]
                              (opened [member_4; member_5]))
  ∧ member_4 ∈ images (opened [member_4; member_5])
  ∧ member_5 ∈ images (opened [member_4; member_5])
  ∧ Instance.get member_4 6 = VNum 3 ∧ Instance.get member_5 6 = VNum 4
  ∧ MergeRow.conflict row_count_45 = true.
Proof.
  assert (row_count_45 ∈ mergeRows (buildRows messages_en host_Date_toString [p_count]
                                      (opened [member_4; member_5]))) as Hin.
  { vm_compute. left. }
  assert (member_4 ∈ images (opened [member_4; member_5])) as H4 by left.
  assert (member_5 ∈ images (opened [member_4; member_5])) as H5 by (right; left).
  split; [exact Hin|]. split; [exact H4|]. split; [exact H5|].
  split; [reflexivity|]. split; [reflexivity|].
  apply (different_numbers_conflict messages_en host_Date_toString [p_count]
           (opened [member_4; member_5]) row_count_45 member_4 member_5 3 4
           Hin H4 H5 eq_refl eq_refl).
  discriminate.
Defined.

Lemma every_row_selected_witness :
  row_name_1 ∈ mergeRows (buildRows messages_en host_Date_toString [p_name] stale_cluster)
  ∧ is_Some (selectedOptions
               (buildRows messages_en host_Date_toString [p_name] stale_cluster) !! 1).
Proof.
  assert (row_name_1 ∈ mergeRows (buildRows messages_en host_Date_toString [p_name]
                                    stale_cluster)) as Hin.
  { vm_compute. left. }
  destruct (every_row_selected messages_en host_Date_toString [p_name] stale_cluster)
    as [Hsel _].
  split; [exact Hin|exact (Hsel row_name_1 Hin)].
Defined.

Lemma rows_always_current_witness :
  row_name_12 ∈ mergeRows (state
    (run messages_en host_Date_toString catalog (mkWorld initial [])
       [Show (Some [member_1; member_2]); PickOption 1 "2"; ClickConfirm; Settled false]))
  ∧ is_Some (selectedOptions (state
      (run messages_en host_Date_toString catalog (mkWorld initial [])
         [Show (Some [member_1; member_2]); PickOption 1 "2"; ClickConfirm;
          Settled false])) !! 1).
Proof.
  assert (row_name_12 ∈ mergeRows (state
    (run messages_en host_Date_toString catalog (mkWorld initial [])
       [Show (Some [member_1; member_2]); PickOption 1 "2"; ClickConfirm;
        Settled false]))) as Hin.
  { vm_compute. left. }
  destruct (rows_always_current messages_en host_Date_toString catalog
              [Show (Some [member_1; member_2]); PickOption 1 "2"; ClickConfirm;
               Settled false]) as [_ Hsel].
  split; [exact Hin|exact (Hsel row_name_12 Hin)].
Defined.

Lemma plain_keys_injective_witness :
  Property.type p_name ≠ PropertyType.color
  ∧ stringifyValue host_Date_toString (VNum 1) p_name
    ≠ stringifyValue host_Date_toString (VStr "1") p_name
  ∧ stringifyValue host_Date_toString (VNum 1) p_color
    = stringifyValue host_Date_toString (VStr "1") p_color.
Proof.
  assert (Property.type p_name ≠ PropertyType.color) as Hcolor by discriminate.
  destruct (plain_keys_injective messages_en host_Date_toString p_name Hcolor)
    as [Hinj _].
  split; [exact Hcolor|]. split; [|reflexivity].
  intros Heq. apply (Hinj (SNum 1) (SStr "1") eq_refl eq_refl) in Heq. discriminate Heq.
Defined.


Lemma combinedLabel_is_combined_value_witness :
  isTag (Property.type p_name) = false
  ∧ Exists (λ v, defined v = true) [VStr "A"; null; VStr "B"]
  ∧ combineValues messages_en host_Date_toString [VStr "A"; null; VStr "B"] p_name
    = VStr (combinedLabel messages_en host_Date_toString tag_table
              [VStr "A"; null; VStr "B"] p_name)
  ∧ combinedLabel messages_en host_Date_toString tag_table [VStr "A"; null; VStr "B"] p_name
    = "A -- B"
  ∧ combinedLabel messages_en host_Date_toString tag_table [null] p_name = "none".
Proof.
  assert (Exists (λ v, defined v = true) [VStr "A"; null; VStr "B"]) as Hex.
  { left. reflexivity. }
  destruct (combinedLabel_is_combined_value messages_en host_Date_toString tag_table
              [VStr "A"; null; VStr "B"] p_name eq_refl) as [Hsame _].
  destruct (combinedLabel_is_combined_value messages_en host_Date_toString tag_table
              [null] p_name eq_refl) as [_ Hnone].
  split; [reflexivity|]. split; [exact Hex|]. split; [exact (Hsame Hex)|].
  split; [reflexivity|].
  destruct Hnone as [Hlabel _]; [repeat constructor|exact Hlabel].
Defined.

